(** * lab_5_scrapper/scrapper.py: a shallow embedding

    The crawler of [src/lab_5_scrapper/scrapper.py] is embedded function by
    function.  Pure code (configuration validation, the traversal of a parsed
    HTML tree) becomes total functions into [result]; code that sleeps, draws
    random numbers or talks to the network runs in a state-and-exception monad
    over an explicit [world]; [prepare_environment] runs over an explicit
    file-system tree.  Python exceptions are values of [exception]. *)

From Stdlib Require Import String Ascii List ZArith Bool Lia.
Import ListNotations.
Set Warnings "-register-all".
Open Scope list_scope.
Open Scope string_scope.

(** ** Exceptions and results *)

(** The seven exception classes the module declares (lines 21-46), and the
    built-in or library exceptions its statements can raise. *)
Inductive exception : Type :=
| IncorrectSeedURLError
| IncorrectNumberOfArticlesError
| NumberOfArticlesOutOfRangeError
| IncorrectHeadersError
| IncorrectEncodingError
| IncorrectVerifyError
| IncorrectTimeoutError
| KeyError (key : string)
| TypeError
| IndexError
| ConnectionError          (* requests.exceptions.ConnectionError *)
| Timeout                  (* requests.exceptions.Timeout *)
| FileExistsError
| FileNotFoundError
| NotADirectoryError
| IsADirectoryError.

Inductive result (A : Type) : Type :=
| Ok (a : A)
| Raise (e : exception).
Arguments Ok {A} a.
Arguments Raise {A} e.

Definition rbind {A B} (r : result A) (k : A -> result B) : result B :=
  match r with
  | Ok a => k a
  | Raise e => Raise e
  end.

Declare Scope result_scope.
Delimit Scope result_scope with result.
Notation "x <- r ;; k" := (rbind r (fun x => k))
  (at level 61, r at next level, right associativity) : result_scope.

(** ** Python values, as [json.load] produces them *)

Inductive value : Type :=
| VNone
| VBool (b : bool)
| VInt (n : Z)
| VFloat (literal : string)
| VStr (s : string)
| VList (items : list value)
| VDict (items : list (string * value)).

(** [isinstance(v, int)]: [bool] is a subclass of [int] in Python, so both
    integers and booleans are instances. *)
Definition isinstance_int (v : value) : bool :=
  match v with VInt _ | VBool _ => true | _ => false end.

(** The integer a value compares as ([True] is 1, [False] is 0).  The source
    compares only behind an [isinstance(_, int)] guard; on other values the
    result is unused. *)
Definition int_of (v : value) : Z :=
  match v with
  | VInt n => n
  | VBool b => Z.b2z b
  | _ => 0%Z
  end.

Definition isinstance_list (v : value) : bool :=
  match v with VList _ => true | _ => false end.
Definition isinstance_dict (v : value) : bool :=
  match v with VDict _ => true | _ => false end.
Definition isinstance_str (v : value) : bool :=
  match v with VStr _ => true | _ => false end.
Definition isinstance_bool (v : value) : bool :=
  match v with VBool _ => true | _ => false end.

Fixpoint assoc {A} (k : string) (kv : list (string * A)) : option A :=
  match kv with
  | [] => None
  | (k', a) :: kv' => if String.eqb k k' then Some a else assoc k kv'
  end.

(** [d[key]] on a value: [KeyError] on a dictionary without the key,
    [TypeError] on a value that is not a dictionary (a list indexed by a
    string, a number, ...). *)
Definition getitem (d : value) (key : string) : result value :=
  match d with
  | VDict kv =>
      match assoc key kv with
      | Some v => Ok v
      | None => Raise (KeyError key)
      end
  | _ => Raise TypeError
  end.

(** ** Regular expressions ([re.match]) *)

Module Re.

Definition newline : ascii := "010"%char.

Inductive regex : Type :=
| Void
| Eps
| Chr (c : ascii)
| Dot                       (* [.]: any character but a newline *)
| Cat (r1 r2 : regex)
| Alt (r1 r2 : regex)
| Star (r : regex).

Definition Opt (r : regex) : regex := Alt r Eps.       (* [r?] *)
Definition Plus (r : regex) : regex := Cat r (Star r). (* [r+] *)

Fixpoint Lit (s : string) : regex :=
  match s with
  | EmptyString => Eps
  | String c s' => Cat (Chr c) (Lit s')
  end.

Fixpoint Seq (rs : list regex) : regex :=
  match rs with
  | [] => Eps
  | r :: rs' => Cat r (Seq rs')
  end.

(** The words of a regular expression. *)
Inductive matches : regex -> string -> Prop :=
| MEps : matches Eps ""
| MChr c : matches (Chr c) (String c "")
| MDot c : c <> newline -> matches Dot (String c "")
| MCat r1 r2 s1 s2 :
    matches r1 s1 -> matches r2 s2 -> matches (Cat r1 r2) (s1 ++ s2)
| MAltL r1 r2 s : matches r1 s -> matches (Alt r1 r2) s
| MAltR r1 r2 s : matches r2 s -> matches (Alt r1 r2) s
| MStarNil r : matches (Star r) ""
| MStarApp r s1 s2 :
    matches r s1 -> matches (Star r) s2 -> matches (Star r) (s1 ++ s2).

Fixpoint nullable (r : regex) : bool :=
  match r with
  | Void => false
  | Eps => true
  | Chr _ => false
  | Dot => false
  | Cat r1 r2 => nullable r1 && nullable r2
  | Alt r1 r2 => nullable r1 || nullable r2
  | Star _ => true
  end.

Fixpoint deriv (c : ascii) (r : regex) : regex :=
  match r with
  | Void => Void
  | Eps => Void
  | Chr c' => if Ascii.eqb c c' then Eps else Void
  | Dot => if Ascii.eqb c newline then Void else Eps
  | Cat r1 r2 =>
      if nullable r1
      then Alt (Cat (deriv c r1) r2) (deriv c r2)
      else Cat (deriv c r1) r2
  | Alt r1 r2 => Alt (deriv c r1) (deriv c r2)
  | Star r1 => Cat (deriv c r1) (Star r1)
  end.

(** [re.match(r, s) is not None]: some prefix of [s] is a word of [r]
    ([re.match] anchors at the start of the string only). *)
Fixpoint re_match (r : regex) (s : string) : bool :=
  nullable r ||
  match s with
  | EmptyString => false
  | String c s' => re_match (deriv c r) s'
  end.

End Re.

(** The pattern of line 96, [https?://(www)?\.21mm.ru+], piece by piece. *)
Definition seed_url_pattern : Re.regex :=
  Re.Seq [ Re.Lit "http"; Re.Opt (Re.Chr "s"); Re.Lit "://";
           Re.Opt (Re.Lit "www"); Re.Chr "."; Re.Lit "21mm";
           Re.Dot; Re.Chr "r"; Re.Plus (Re.Chr "u") ].

(** ** Configuration (class [Config], lines 49-176) *)

(** Modelled from the spec: [core_utils.config_dto.ConfigDTO] is imported but
    not part of the source file.  It is the plain holder of the seven
    configuration fields of the spec's data model; the source builds it with
    the keyword arguments of lines 82-88 and reads the attributes below
    ([total_articles] holds [total_articles_to_find_and_parse]). *)
Record ConfigDTO : Type := mkConfigDTO {
  seed_urls : value;
  total_articles : value;
  headers : value;
  encoding : value;
  timeout : value;
  should_verify_certificate : value;
  headless_mode : value
}.

(** [_extract_config_content] (lines 72-88).  [file] is what [json.load]
    returned for the configuration file; the keyword arguments are evaluated
    left to right, so the first absent key is the one [KeyError] names. *)
Definition _extract_config_content (file : value) : result ConfigDTO :=
  (a <- getitem file "seed_urls" ;;
   b <- getitem file "total_articles_to_find_and_parse" ;;
   c <- getitem file "headers" ;;
   d <- getitem file "encoding" ;;
   e <- getitem file "timeout" ;;
   f <- getitem file "should_verify_certificate" ;;
   g <- getitem file "headless_mode" ;;
   Ok (mkConfigDTO a b c d e f g))%result.

(** [re.match(pattern, seed_url)] for one entry of the seed list: the
    argument must be a string. *)
Definition match_seed_url (seed_url : value) : result bool :=
  match seed_url with
  | VStr s => Ok (Re.re_match seed_url_pattern s)
  | _ => Raise TypeError
  end.

(** [all(re.match(...) for seed_url in seed_urls)]: the generator is consumed
    up to the first entry that does not match. *)
Fixpoint all_match (seeds : list value) : result bool :=
  match seeds with
  | [] => Ok true
  | seed_url :: rest =>
      (m <- match_seed_url seed_url ;;
       if m then all_match rest else Ok false)%result
  end.

(** The condition of lines 95-98, [isinstance(seed_urls, list) and all(...)]. *)
Definition seed_urls_ok (v : value) : result bool :=
  match v with
  | VList seeds => all_match seeds
  | _ => Ok false
  end.

(** The checks of lines 95-113 on the extracted fields, in source order. *)
Definition validate_fields (config : ConfigDTO) : result unit :=
  (ok <- seed_urls_ok (seed_urls config) ;;
   if negb ok then Raise IncorrectSeedURLError else
   let num := total_articles config in
   if negb (isinstance_int num) || (int_of num <=? 0)%Z
   then Raise IncorrectNumberOfArticlesError else
   if negb ((0 <? int_of num)%Z && (int_of num <=? 150)%Z)
   then Raise NumberOfArticlesOutOfRangeError else
   if negb (isinstance_dict (headers config))
   then Raise IncorrectHeadersError else
   if negb (isinstance_str (encoding config))
   then Raise IncorrectEncodingError else
   if negb (isinstance_int (timeout config))
      || negb ((0 <=? int_of (timeout config))%Z
               && (int_of (timeout config) <=? 60)%Z)
   then Raise IncorrectTimeoutError else
   if negb (isinstance_bool (should_verify_certificate config))
      || negb (isinstance_bool (headless_mode config))
   then Raise IncorrectVerifyError else
   Ok tt)%result.

(** [_validate_config_content] (lines 90-113). *)
Definition _validate_config_content (file : value) : result unit :=
  (config <- _extract_config_content file ;;
   validate_fields config)%result.

(** An instance of [Config]: the attributes [__init__] sets (lines 61-70). *)
Record Config : Type := mkConfig {
  config : ConfigDTO;
  _seed_urls : value;
  _num_articles : value;
  _headers : value;
  _encoding : value;
  _timeout : value;
  _should_verify_certificate : value;
  _headless_mode : value
}.

(** [Config.__init__] (lines 54-70); the file is read twice, once by the
    validation and once for the attributes. *)
Definition Config__init__ (file : value) : result Config :=
  (_ <- _validate_config_content file ;;
   dto <- _extract_config_content file ;;
   Ok (mkConfig dto (seed_urls dto) (total_articles dto) (headers dto)
                (encoding dto) (timeout dto)
                (should_verify_certificate dto) (headless_mode dto)))%result.

Definition get_seed_urls (self : Config) : value := _seed_urls self.
Definition get_num_articles (self : Config) : value := _num_articles self.
Definition get_headers (self : Config) : value := _headers self.
Definition get_encoding (self : Config) : value := _encoding self.
Definition get_timeout (self : Config) : value := _timeout self.
Definition get_verify_certificate (self : Config) : value :=
  _should_verify_certificate self.
Definition get_headless_mode (self : Config) : value := _headless_mode self.

(** ** Parsed HTML ([bs4]) *)

Module Bs4.

(** A parsed document: tags with their attributes and children, and text
    nodes.  A [BeautifulSoup] object is the root tag of its document. *)
Inductive node : Type :=
| Tag (name : string) (attrs : list (string * string)) (children : list node)
| NavigableString (s : string).

(** [Tag.descendants]: every node below [n], in document order. *)
Fixpoint descendants (n : node) : list node :=
  match n with
  | Tag _ _ children => flat_map (fun c => c :: descendants c) children
  | NavigableString _ => []
  end.

Definition tag_named (name : string) (n : node) : bool :=
  match n with
  | Tag name' _ _ => String.eqb name' name
  | NavigableString _ => false
  end.

Definition attr (key : string) (n : node) : option string :=
  match n with
  | Tag _ attrs _ => assoc key attrs
  | NavigableString _ => None
  end.

Definition is_space (c : ascii) : bool :=
  match c with
  | " "%char | "009"%char | "010"%char | "011"%char | "012"%char
  | "013"%char => true
  | _ => false
  end.

(** The tokens of a [class] attribute: the maximal runs without whitespace
    ([bs4] stores [class] as the list of these). *)
Fixpoint tokens_from (cur : string) (s : string) : list string :=
  match s with
  | EmptyString => if String.eqb cur "" then [] else [cur]
  | String c s' =>
      if is_space c
      then (if String.eqb cur "" then tokens_from "" s'
            else cur :: tokens_from "" s')
      else tokens_from (cur ++ String c "") s'
  end.
Definition class_tokens (v : string) : list string := tokens_from "" v.

(** How [find_all] matches a wanted string against a tag's [class]: one of
    the tokens is the wanted string, or the tokens joined by single spaces
    are. *)
Definition class_matches (wanted : string) (v : string) : bool :=
  existsb (String.eqb wanted) (class_tokens v)
  || String.eqb (String.concat " " (class_tokens v)) wanted.

Definition attr_matches (n : node) (kv : string * string) : bool :=
  let (key, wanted) := kv in
  match attr key n with
  | None => false
  | Some v => if String.eqb key "class" then class_matches wanted v
              else String.eqb v wanted
  end.

(** [n.find_all(name, attrs)]: the descendants of [n] that are tags of that
    name meeting every attribute filter, in document order. *)
Definition find_all (n : node) (name : string)
    (attrs : list (string * string)) : list node :=
  filter (fun d => tag_named name d && forallb (attr_matches d) attrs)
         (descendants n).

(** [n.select(name)] for a bare type selector: the descendant tags of that
    name, in document order. *)
Definition select (n : node) (name : string) : list node :=
  filter (tag_named name) (descendants n).

(** [n[key]]: the attribute, [KeyError] when the tag does not carry it. *)
Definition getitem (n : node) (key : string) : result string :=
  match attr key n with
  | Some v => Ok v
  | None => Raise (KeyError key)
  end.

(** [n.text]: the text nodes below [n], concatenated in document order. *)
Fixpoint text (n : node) : string :=
  match n with
  | Tag _ _ children => String.concat "" (map text children)
  | NavigableString s => s
  end.

End Bs4.

(** ** The world the crawler runs in *)

Module requests.

(** What the source reads of a [requests.models.Response]. *)
Record Response : Type := mkResponse {
  ok : bool;
  text : string
}.

(** The keyword arguments of one [requests.get] call (lines 191-194). *)
Record call : Type := mkCall {
  url : value;
  timeout : value;
  headers : value;
  verify : value
}.

End requests.

Inductive event : Type :=
| Sleep (seconds : Z)
| Get (c : requests.call).

(** The environment: the numbers the random generator will produce, what the
    network will answer to each successive GET (a response, whatever its
    status, or an exception of [requests]), and the log of what the program
    did so far. *)
Record world : Type := mkWorld {
  entropy : nat -> Z;
  network : nat -> requests.call -> result requests.Response;
  trace : list event
}.

(** Stateful code that may raise: a computation takes the state and gives a
    result, or the exception raised, together with the state it leaves. *)
Definition ST (S A : Type) : Type := S -> result A * S.

Definition ret {S A} (a : A) : ST S A := fun s => (Ok a, s).

Definition bind {S A B} (m : ST S A) (k : A -> ST S B) : ST S B :=
  fun s =>
    match m s with
    | (Ok a, s') => k a s'
    | (Raise e, s') => (Raise e, s')
    end.

Definition lift {S A} (r : result A) : ST S A := fun s => (r, s).

Declare Scope io_scope.
Delimit Scope io_scope with io.
Notation "x <- m ;; k" := (bind m (fun x => k))
  (at level 61, m at next level, right associativity) : io_scope.

Definition M (A : Type) : Type := ST world A.

Definition log (e : event) (w : world) : world :=
  mkWorld (entropy w) (network w) (trace w ++ [e]).

(** [random.randrange(stop)] for a positive [stop]: the next number of the
    generator, reduced to [0 .. stop - 1]. *)
Definition randrange (stop : Z) : M Z :=
  fun w => (Ok (entropy w 0 mod stop)%Z,
            mkWorld (fun n => entropy w (S n)) (network w) (trace w)).

(** [time.sleep(seconds)]. *)
Definition sleep (seconds : Z) : M unit :=
  fun w => (Ok tt, log (Sleep seconds) w).

(** [requests.get(...)]: one GET goes out; the network answers with a
    response or the call raises. *)
Definition requests_get (c : requests.call) : M requests.Response :=
  fun w => (network w 0 c,
            log (Get c) (mkWorld (entropy w) (fun n => network w (S n))
                                 (trace w))).

(** [make_request] (lines 179-194). *)
Definition make_request (url : value) (config : Config)
    : M requests.Response :=
  (seconds <- randrange 3 ;;
   _ <- sleep seconds ;;
   requests_get (requests.mkCall url (get_timeout config)
                                 (get_headers config)
                                 (get_verify_certificate config)))%io.

(** [for x in v]: the items a Python value yields when iterated. *)
Definition iterate (v : value) : result (list value) :=
  match v with
  | VList items => Ok items
  | VDict kv => Ok (map (fun p => VStr (fst p)) kv)
  | VStr s => Ok (map (fun c => VStr (String c "")) (list_ascii_of_string s))
  | _ => Raise TypeError
  end.

(** ** Crawler (lines 197-252) *)

Module Crawler.

Record t : Type := mk {
  config : Config;
  urls : list string;
  url_pattern : string
}.

(** [Crawler.__init__] (lines 204-213). *)
Definition __init__ (config : Config) : t :=
  mk config [] "https://www.21mm.ru".

(** The inner loop of [_extract_url] (lines 228-229): every anchor of one
    container overwrites [url] with its [href]. *)
Fixpoint each_link (anchors : list Bs4.node) (url : string) : result string :=
  match anchors with
  | [] => Ok url
  | link :: rest =>
      (href <- Bs4.getitem link "href" ;; each_link rest href)%result
  end.

(** The outer loop of [_extract_url] (lines 227-229). *)
Fixpoint each_container (links : list Bs4.node) (url : string)
    : result string :=
  match links with
  | [] => Ok url
  | each :: rest =>
      (url' <- each_link (Bs4.select each "a") url ;;
       each_container rest url')%result
  end.

(** [Crawler._extract_url] (lines 215-230). *)
Definition _extract_url (self : t) (article_bs : Bs4.node) : result string :=
  let links :=
    Bs4.find_all article_bs "div" [("class", "figcaption promo-link")] in
  (url <- each_container links "" ;;
   Ok (url_pattern self ++ url))%result.

(** [Crawler.get_search_urls] (lines 245-252). *)
Definition get_search_urls (self : t) : value :=
  get_seed_urls (config self).

Section FindArticles.

(** [BeautifulSoup(markup, 'lxml')]: the HTML parser is a library of its own;
    the crawler is embedded over any parser. *)
Variable lxml : string -> Bs4.node.

(** The loop of [find_articles] (lines 237-242) over the remaining seed
    URLs, [urls] being the local list built so far. *)
Fixpoint each_seed (self : t) (seeds : list value) (urls : list string)
    : M (list string) :=
  match seeds with
  | [] => ret urls
  | url :: rest =>
      (response <- make_request url (config self) ;;
       if negb (requests.ok response)
       then each_seed self rest urls
       else
         let article_bs := lxml (requests.text response) in
         found <- lift (_extract_url self article_bs) ;;
         each_seed self rest (urls ++ [found]))%io
  end.

(** [Crawler.find_articles] (lines 232-243); the result is the crawler after
    [self.urls.extend(urls)]. *)
Definition find_articles (self : t) : M t :=
  (seeds <- lift (iterate (get_search_urls self)) ;;
   found <- each_seed self seeds [] ;;
   ret (mk (config self) (urls self ++ found) (url_pattern self)))%io.

End FindArticles.

End Crawler.

(** ** HTMLParser (lines 258-323) *)

(** Modelled from the spec: [core_utils.article.article.Article] is imported
    but not part of the source file.  The spec's article record has the [url]
    and the [id] given at creation and a [text] that is initially empty; the
    source builds it as [Article(full_url, article_id)] and assigns [text]. *)
Module Article.

Record t : Type := mk {
  url : string;
  article_id : Z;
  text : string
}.

Definition __init__ (url : string) (article_id : Z) : t := mk url article_id "".

End Article.

Module HTMLParser.

Record t : Type := mk {
  full_url : string;
  article_id : Z;
  config : Config;
  article : Article.t
}.

(** [HTMLParser.__init__] (lines 263-275). *)
Definition __init__ (full_url : string) (article_id : Z) (config : Config)
    : t :=
  mk full_url article_id config (Article.__init__ full_url article_id).

(** [HTMLParser._fill_article_with_text] (lines 277-290); the result is the
    parser after the assignment to [self.article.text]. *)
Definition _fill_article_with_text (self : t) (article_soup : Bs4.node) : t :=
  let text_elements := Bs4.find_all article_soup "div" [] in
  match text_elements with
  | [] => self
  | first :: _ =>
      let all_divs :=
        Bs4.find_all first "div"
          [("class", "categories-block__figure border-radius4px")] in
      let extracted_text := map Bs4.text all_divs in
      mk (full_url self) (article_id self) (config self)
         (Article.mk (Article.url (article self))
                     (Article.article_id (article self))
                     (String.concat "" extracted_text))
  end.

Section Parse.

Variable lxml : string -> Bs4.node.

(** [HTMLParser.parse] (lines 311-323): the returned article, with the parser
    as the call leaves it. *)
Definition parse (self : t) : M (Article.t * t) :=
  (response <- make_request (VStr (full_url self)) (config self) ;;
   if requests.ok response
   then
     let article_bs := lxml (requests.text response) in
     let self' := _fill_article_with_text self article_bs in
     ret (article self', self')
   else ret (article self, self))%io.

End Parse.

End HTMLParser.

(** ** The file system ([os]) and [prepare_environment] (lines 326-339) *)

Module os.

(** A file-system tree: files, and directories with their named entries. *)
Inductive inode : Type :=
| File
| Dir (entries : list (string * inode)).

(** A path, as its components; relative paths are read from the working
    directory.  (No [.], [..] or symbolic links.) *)
Record path : Type := mkPath {
  absolute : bool;
  parts : list string
}.

Record fs : Type := mkFs {
  root : inode;
  cwd : list string
}.

Definition resolve (f : fs) (p : path) : list string :=
  if absolute p then parts p else cwd f ++ parts p.

Fixpoint lookup (n : inode) (p : list string) : option inode :=
  match p with
  | [] => Some n
  | x :: p' =>
      match n with
      | File => None
      | Dir entries =>
          match assoc x entries with
          | Some child => lookup child p'
          | None => None
          end
      end
  end.

Fixpoint set_entry (x : string) (n : inode) (entries : list (string * inode))
    : list (string * inode) :=
  match entries with
  | [] => [(x, n)]
  | (y, m) :: rest =>
      if String.eqb x y then (y, n) :: rest else (y, m) :: set_entry x n rest
  end.

Fixpoint del_entry (x : string) (entries : list (string * inode))
    : list (string * inode) :=
  match entries with
  | [] => []
  | (y, m) :: rest =>
      if String.eqb x y then rest else (y, m) :: del_entry x rest
  end.

(** A chain of new, otherwise empty directories. *)
Fixpoint fresh (p : list string) : inode :=
  match p with
  | [] => Dir []
  | x :: p' => Dir [(x, fresh p')]
  end.

Fixpoint makedirs_at (n : inode) (p : list string) : result inode :=
  match p with
  | [] => Raise FileExistsError
  | x :: p' =>
      match n with
      | File => Raise NotADirectoryError
      | Dir entries =>
          match assoc x entries with
          | Some child =>
              (child' <- makedirs_at child p' ;;
               Ok (Dir (set_entry x child' entries)))%result
          | None => Ok (Dir (entries ++ [(x, fresh p')]))
          end
      end
  end.

Fixpoint remove_at (n : inode) (p : list string) : result inode :=
  match p with
  | [] => Raise IsADirectoryError
  | x :: p' =>
      match n with
      | File => Raise NotADirectoryError
      | Dir entries =>
          match assoc x entries with
          | None => Raise FileNotFoundError
          | Some child =>
              match p' with
              | [] =>
                  match child with
                  | File => Ok (Dir (del_entry x entries))
                  | Dir _ => Raise IsADirectoryError
                  end
              | _ :: _ =>
                  (child' <- remove_at child p' ;;
                   Ok (Dir (set_entry x child' entries)))%result
              end
          end
      end
  end.

Definition on_root (op : inode -> result inode) : ST fs unit :=
  fun f =>
    match op (root f) with
    | Ok r => (Ok tt, mkFs r (cwd f))
    | Raise e => (Raise e, f)
    end.

(** [os.path.exists(p)]. *)
Definition path_exists (p : path) : ST fs bool :=
  fun f =>
    (Ok (match lookup (root f) (resolve f p) with
         | Some _ => true
         | None => false
         end), f).

(** [os.makedirs(p)]: creates [p] and the directories missing above it;
    raises when [p] exists or a component above it is a file. *)
Definition makedirs (p : path) : ST fs unit :=
  fun f => on_root (fun r => makedirs_at r (resolve f p)) f.

(** [os.listdir(p)]: the names of the entries of the directory [p]. *)
Definition listdir (p : path) : ST fs (list string) :=
  fun f =>
    (match lookup (root f) (resolve f p) with
     | Some (Dir entries) => Ok (map fst entries)
     | Some File => Raise NotADirectoryError
     | None => Raise FileNotFoundError
     end, f).

(** [os.remove(p)]: deletes the file [p]; raises on a directory or a
    missing path. *)
Definition remove (p : path) : ST fs unit :=
  fun f => on_root (fun r => remove_at r (resolve f p)) f.

(** A name returned by [os.listdir], used as a path: a relative path of one
    component. *)
Definition name_as_path (name : string) : path := mkPath false [name].

End os.

(** The loop of lines 337-339. *)
Fixpoint each_file (files : list string) : ST os.fs unit :=
  match files with
  | [] => ret tt
  | file :: rest =>
      (present <- os.path_exists (os.name_as_path file) ;;
       _ <- (if present then os.remove (os.name_as_path file) else ret tt) ;;
       each_file rest)%io
  end.

(** [prepare_environment] (lines 326-339). *)
Definition prepare_environment (base_path : os.path) : ST os.fs unit :=
  (present <- os.path_exists base_path ;;
   if negb present
   then os.makedirs base_path
   else
     files <- os.listdir base_path ;;
     each_file files)%io.

(** ** The validation order, as the specification words it *)

(** One check of the validator: whether a configuration violates it (the
    check may itself fault on a value of the wrong type) and the error kind
    it answers with. *)
Definition check : Type := (ConfigDTO -> result bool) * exception.

(** The checks in the order of the specification: seed URL shape, article
    count type, article count range, header type, encoding type, timeout
    type and range, boolean-flag types. *)
Definition checks_in_order : list check :=
  [ (fun c => (ok <- seed_urls_ok (seed_urls c) ;; Ok (negb ok))%result,
     IncorrectSeedURLError);
    (fun c => Ok (negb (isinstance_int (total_articles c))
                  || (int_of (total_articles c) <=? 0)%Z),
     IncorrectNumberOfArticlesError);
    (fun c => Ok ((int_of (total_articles c) <? 1)%Z
                  || (150 <? int_of (total_articles c))%Z),
     NumberOfArticlesOutOfRangeError);
    (fun c => Ok (negb (isinstance_dict (headers c))),
     IncorrectHeadersError);
    (fun c => Ok (negb (isinstance_str (encoding c))),
     IncorrectEncodingError);
    (fun c => Ok (negb (isinstance_int (timeout c))
                  || (int_of (timeout c) <? 0)%Z
                  || (60 <? int_of (timeout c))%Z),
     IncorrectTimeoutError);
    (fun c => Ok (negb (isinstance_bool (should_verify_certificate c))
                  || negb (isinstance_bool (headless_mode c))),
     IncorrectVerifyError) ].

(** Fail with the kind of the first violated check, succeed when there is
    none. *)
Fixpoint first_violation (checks : list check) (c : ConfigDTO) : result unit :=
  match checks with
  | [] => Ok tt
  | (violated, kind) :: rest =>
      (v <- violated c ;;
       if v then Raise kind else first_violation rest c)%result
  end.

(** ** Example inputs *)

(** A configuration file with the given seed list and article count and
    valid values in the other five fields. *)
Definition config_file (seeds count : value) : value :=
  VDict [ ("seed_urls", seeds);
          ("total_articles_to_find_and_parse", count);
          ("headers", VDict []);
          ("encoding", VStr "utf-8");
          ("timeout", VInt 5);
          ("should_verify_certificate", VBool true);
          ("headless_mode", VBool false) ].

Definition config_dto (seeds count : value) : ConfigDTO :=
  mkConfigDTO seeds count (VDict []) (VStr "utf-8") (VInt 5)
              (VBool true) (VBool false).

Definition news_seed : value := VList [VStr "https://www.21mm.ru/news/"].

(** ** Vocabulary for the statements about fetching *)

(** The GET that [make_request url config] issues. *)
Definition call_of (url : value) (config : Config) : requests.call :=
  requests.mkCall url (get_timeout config) (get_headers config)
                  (get_verify_certificate config).

(** The world one [make_request url config] leaves: one random number and
    one answer of the network consumed, one sleep and one GET logged. *)
Definition after_request (url : value) (config : Config) (w : world)
    : world :=
  mkWorld (fun n => entropy w (S n)) (fun n => network w (S n))
          (trace w ++ [Sleep (entropy w 0 mod 3)%Z; Get (call_of url config)]).




(** The filter of line 225. *)
Definition link_container : list (string * string) :=
  [("class", "figcaption promo-link")].

(** The anchors [_extract_url] visits on a page, in the order its two loops
    visit them: container by container, and within a container in document
    order. *)
Definition visited_anchors (page : Bs4.node) : list Bs4.node :=
  flat_map (fun each => Bs4.select each "a")
           (Bs4.find_all page "div" link_container).

(** The [href] an anchor carries, the empty string when it has none. *)
Definition href_of (a : Bs4.node) : string :=
  match Bs4.attr "href" a with
  | Some h => h
  | None => ""
  end.

Definition has_href (a : Bs4.node) : bool :=
  match Bs4.attr "href" a with
  | Some _ => true
  | None => false
  end.

(** What one seed page adds to the list of URLs, given the answer to its
    GET: nothing when the status is not a success, the one extracted URL
    otherwise. *)
Definition contribution (lxml : string -> Bs4.node) (self : Crawler.t)
    (answer : result requests.Response) : result (list string) :=
  match answer with
  | Raise e => Raise e
  | Ok r =>
      if requests.ok r
      then (found <- Crawler._extract_url self (lxml (requests.text r)) ;;
            Ok [found])%result
      else Ok []
  end.

(** The contributions of the seed pages, in seed order, [net] giving the
    answers to the successive GETs. *)
Fixpoint contributions (lxml : string -> Bs4.node) (self : Crawler.t)
    (seeds : list value)
    (net : nat -> requests.call -> result requests.Response)
    : result (list string) :=
  match seeds with
  | [] => Ok []
  | url :: rest =>
      (c <- contribution lxml self
              (net 0 (call_of url (Crawler.config self))) ;;
       cs <- contributions lxml self rest (fun n => net (S n)) ;;
       Ok (c ++ cs)%list)%result
  end.

(** ** Example pages, parser and worlds *)

Definition document (body : list Bs4.node) : Bs4.node :=
  Bs4.Tag "[document]" [] [Bs4.Tag "html" [] [Bs4.Tag "body" [] body]].

Definition anchor (href : string) : Bs4.node :=
  Bs4.Tag "a" [("href", href)] [Bs4.NavigableString "read"].

Definition promo (children : list Bs4.node) : Bs4.node :=
  Bs4.Tag "div" [("class", "figcaption promo-link")] children.

Definition markup_two_containers : string :=
  "<div class='figcaption promo-link'><a href='/news/1'>read</a></div>"
  ++ "<div class='figcaption promo-link'><a href='/news/2'>read</a></div>".
Definition page_two_containers : Bs4.node :=
  document [promo [anchor "/news/1"]; promo [anchor "/news/2"]].

Definition markup_two_anchors : string :=
  "<div class='figcaption promo-link'><a href='/news/1'>read</a>"
  ++ "<a href='/news/2'>read</a></div>".
Definition page_two_anchors : Bs4.node :=
  document [promo [anchor "/news/1"; anchor "/news/2"]].

Definition markup_no_container : string := "<p>nothing here</p>".
Definition page_no_container : Bs4.node :=
  document [Bs4.Tag "p" [] [Bs4.NavigableString "nothing here"]].

Definition markup_absolute_href : string :=
  "<div class='figcaption promo-link'>"
  ++ "<a href='https://www.21mm.ru/news/1'>read</a></div>".
Definition page_absolute_href : Bs4.node :=
  document [promo [anchor "https://www.21mm.ru/news/1"]].

(** A parser that knows the example pages. *)
Definition example_lxml (markup : string) : Bs4.node :=
  if String.eqb markup markup_two_containers then page_two_containers
  else if String.eqb markup markup_two_anchors then page_two_anchors
  else if String.eqb markup markup_no_container then page_no_container
  else if String.eqb markup markup_absolute_href then page_absolute_href
  else document [].

(** A world whose network gives the listed answers to the successive GETs
    (and has no connection afterwards), with a generator that always
    produces 0 and an empty log. *)
Definition world_of (answers : list (result requests.Response)) : world :=
  mkWorld (fun _ => 0%Z)
          (fun n _ => nth n answers (Raise ConnectionError))
          [].

Definition found_response (markup : string) : requests.Response :=
  requests.mkResponse true markup.
Definition page_found (markup : string) : result requests.Response :=
  Ok (found_response markup).
Definition not_found_response : requests.Response :=
  requests.mkResponse false "<h1>404 Not Found</h1>".
Definition not_found : result requests.Response := Ok not_found_response.

(** The [Config] that [Config.__init__] builds from the sample
    configuration file with the given seeds. *)
Definition example_config (seeds : value) : Config :=
  let dto := config_dto seeds (VInt 5) in
  mkConfig dto seeds (VInt 5) (VDict []) (VStr "utf-8") (VInt 5)
           (VBool true) (VBool false).

Definition one_seed : value := news_seed.
Definition two_seeds : value :=
  VList [VStr "https://www.21mm.ru/news/"; VStr "https://www.21mm.ru/sport/"].

Definition news_url : string := "https://www.21mm.ru/news/".
Definition sport_url : string := "https://www.21mm.ru/sport/".

(** The crawler [Crawler.__init__] builds for the two example seeds. *)
Definition example_crawler : Crawler.t :=
  Crawler.__init__ (example_config two_seeds).

Definition article_url : string := "https://www.21mm.ru/news/1".

(** Example worlds: what the network answers to the successive GETs. *)
Definition world_refused_then_found : world :=
  world_of [not_found; page_found markup_two_anchors].
Definition world_refused : world := world_of [not_found].
Definition world_two_containers : world :=
  world_of [page_found markup_two_containers].
Definition world_no_container : world :=
  world_of [page_found markup_no_container].

(** The crawler for the single example seed. *)
Definition news_crawler : Crawler.t :=
  Crawler.__init__ (example_config one_seed).

(** Example file systems: the storage directory [/tmp/articles] holds the
    output of an earlier run, and the process works in [/project]. *)
Definition assets : os.path := os.mkPath true ["tmp"; "articles"].

Definition stale_storage : os.inode :=
  os.Dir [("1_raw.txt", os.File); ("2_raw.txt", os.File)].

Definition stale_fs : os.fs :=
  os.mkFs (os.Dir [ ("tmp", os.Dir [("articles", stale_storage)]);
                    ("project", os.Dir [("scrapper.py", os.File)]) ])
          ["project"].

(** The same, with a file named [1_raw.txt] in the working directory too. *)
Definition homonym_fs : os.fs :=
  os.mkFs (os.Dir [ ("tmp", os.Dir [("articles", stale_storage)]);
                    ("project", os.Dir [("scrapper.py", os.File);
                                        ("1_raw.txt", os.File)]) ])
          ["project"].

Definition homonym_fs_after : os.fs :=
  os.mkFs (os.Dir [ ("tmp", os.Dir [("articles", stale_storage)]);
                    ("project", os.Dir [("scrapper.py", os.File)]) ])
          ["project"].

Definition empty_project_fs : os.fs :=
  os.mkFs (os.Dir [("project", os.Dir [])]) ["project"].

(** ** Vocabulary for the further properties *)

(** The seven keys [_extract_config_content] reads, in the order it reads
    them (lines 82-88). *)
Definition required_keys : list string :=
  [ "seed_urls"; "total_articles_to_find_and_parse"; "headers"; "encoding";
    "timeout"; "should_verify_certificate"; "headless_mode" ].

Definition has_key {A} (kv : list (string * A)) (key : string) : bool :=
  match assoc key kv with
  | Some _ => true
  | None => false
  end.

(** What the checks of lines 95-113 let through: a list of strings that all
    match the seed pattern, an [int] count in 1..150, a dictionary of
    headers, a string encoding, an [int] timeout in 0..60 and two boolean
    flags. *)
Definition valid_fields (c : ConfigDTO) : Prop :=
  (exists seeds,
      seed_urls c = VList (map VStr seeds)
      /\ Forall (fun s => Re.re_match seed_url_pattern s = true) seeds)
  /\ isinstance_int (total_articles c) = true
  /\ (1 <= int_of (total_articles c) <= 150)%Z
  /\ isinstance_dict (headers c) = true
  /\ isinstance_str (encoding c) = true
  /\ isinstance_int (timeout c) = true
  /\ (0 <= int_of (timeout c) <= 60)%Z
  /\ isinstance_bool (should_verify_certificate c) = true
  /\ isinstance_bool (headless_mode c) = true.

(** The strings the pattern of line 96 matches, spelled out: [http], an
    optional [s], [://], an optional [www], a dot, [21mm], one character
    that is not a newline, [ru], and anything after that. *)
Definition site_url_shape (s : string) : Prop :=
  exists scheme www c rest,
    (scheme = "" \/ scheme = "s") /\ (www = "" \/ www = "www")
    /\ c <> Re.newline
    /\ s = "http" ++ scheme ++ "://" ++ www ++ ".21mm"
           ++ String c ("ru" ++ rest).

(** The GET requests of a log, in the order they were issued. *)
Definition requested (t : list event) : list requests.call :=
  flat_map (fun e => match e with
                     | Get c => [c]
                     | Sleep _ => []
                     end) t.

(** The number of seed pages the network answers with a success, [net]
    giving the answers to the successive GETs. *)
Fixpoint successes (self : Crawler.t) (seeds : list value)
    (net : nat -> requests.call -> result requests.Response) : nat :=
  match seeds with
  | [] => 0
  | url :: rest =>
      (match net 0 (call_of url (Crawler.config self)) with
       | Ok r => if requests.ok r then 1 else 0
       | Raise _ => 0
       end)
      + successes self rest (fun n => net (S n))
  end.

(** The filter of line 286. *)
Definition text_block : list (string * string) :=
  [("class", "categories-block__figure border-radius4px")].

(** Two inodes of the same kind: both files, or both directories. *)
Definition same_kind (a b : os.inode) : Prop :=
  match a, b with
  | os.File, os.File => True
  | os.Dir _, os.Dir _ => True
  | _, _ => False
  end.

(** Further example inputs: a storage path below the working directory, a
    path that does not exist in [stale_fs], and the file system of
    [stale_fs] with the process working inside the storage directory. *)
Definition storage_below_cwd : os.path := os.mkPath false ["tmp"; "articles"].
Definition cache_path : os.path := os.mkPath true ["var"; "cache"].
Definition inside_fs : os.fs := os.mkFs (os.root stale_fs) ["tmp"; "articles"].

(** The answers of the network from the [k]-th GET on. *)
Definition answers_from (k : nat)
    (net : nat -> requests.call -> result requests.Response)
    : nat -> requests.call -> result requests.Response :=
  fun n => net (k + n).

(** Three more example worlds for the two example seeds: a page with two
    anchors and then a page without containers; the same two pages the other
    way round; a page with an absolute [href] and then a page with two
    anchors. *)
Definition world_found_then_bare : world :=
  world_of [page_found markup_two_anchors; page_found markup_no_container].
Definition world_bare_then_found : world :=
  world_of [page_found markup_no_container; page_found markup_two_anchors].
Definition world_absolute_then_found : world :=
  world_of [page_found markup_absolute_href; page_found markup_two_anchors].

(** * Properties *)

(** ** The matcher against the words of a regular expression *)

Section ReFacts.
Import Re.

Lemma append_nil_inv (s1 s2 : string) : s1 ++ s2 = "" -> s1 = "" /\ s2 = "".
Proof. destruct s1; simpl; [auto | discriminate]. Qed.

Lemma matches_Cat_inv (r1 r2 : regex) (s : string) :
  matches (Cat r1 r2) s ->
  exists s1 s2, s = s1 ++ s2 /\ matches r1 s1 /\ matches r2 s2.
Proof. intros H. inversion H; subst. eauto. Qed.

Lemma matches_Alt_inv (r1 r2 : regex) (s : string) :
  matches (Alt r1 r2) s -> matches r1 s \/ matches r2 s.
Proof. intros H. inversion H; subst; auto. Qed.

Lemma matches_Chr_inv (c : ascii) (s : string) :
  matches (Chr c) s -> s = String c "".
Proof. intros H. now inversion H. Qed.

Lemma matches_Dot_inv (s : string) :
  matches Dot s -> exists c, s = String c "" /\ c <> newline.
Proof. intros H. inversion H; subst. eauto. Qed.

Lemma matches_Eps_inv (s : string) : matches Eps s -> s = "".
Proof. intros H. now inversion H. Qed.

Lemma nullable_matches (r : regex) : nullable r = true <-> matches r "".
Proof.
  induction r as [ | | c | | r1 IH1 r2 IH2 | r1 IH1 r2 IH2 | r IH ]; simpl.
  - split; [discriminate | intros H; inversion H].
  - split; [constructor | reflexivity].
  - split; [discriminate | intros H; inversion H].
  - split; [discriminate | intros H; inversion H].
  - rewrite andb_true_iff, IH1, IH2. split.
    + intros [H1 H2]. exact (MCat _ _ "" "" H1 H2).
    + intros H. apply matches_Cat_inv in H as (s1 & s2 & E & H1 & H2).
      symmetry in E. apply append_nil_inv in E as [-> ->]. auto.
  - rewrite orb_true_iff, IH1, IH2. split.
    + intros [H | H]; [apply MAltL | apply MAltR]; exact H.
    + apply matches_Alt_inv.
  - split; [constructor | reflexivity].
Qed.

(** A non-empty word of [r*] starts with a non-empty word of [r]. *)
Lemma star_cons (r : regex) (c : ascii) (s : string) :
  matches (Star r) (String c s) ->
  exists s1 s2, s = s1 ++ s2 /\ matches r (String c s1) /\ matches (Star r) s2.
Proof.
  intros H. remember (Star r) as r' eqn:Er. remember (String c s) as w eqn:Ew.
  induction H as [ | | | | | | | r0 s1 s2 H1 _ H2 IH2 ]; try discriminate.
  injection Er as ->. destruct s1 as [|c1 s1]; simpl in Ew.
  - apply IH2; auto.
  - injection Ew as -> <-. exists s1, s2. auto.
Qed.

Lemma deriv_matches (c : ascii) (r : regex) (s : string) :
  matches (deriv c r) s <-> matches r (String c s).
Proof.
  revert s.
  induction r as [ | | c' | | r1 IH1 r2 IH2 | r1 IH1 r2 IH2 | r IH ];
    intros s; simpl.
  - split; intros H; inversion H.
  - split; intros H; inversion H.
  - destruct (Ascii.eqb_spec c c') as [-> | Hc].
    + split; intros H; inversion H; subst; constructor.
    + split; intros H; inversion H; subst; congruence.
  - destruct (Ascii.eqb_spec c newline) as [-> | Hc].
    + split; intros H; inversion H; subst; congruence.
    + split; intros H; inversion H; subst; now constructor.
  - assert (Hcat : matches (Cat (deriv c r1) r2) s ->
                   matches (Cat r1 r2) (String c s)).
    { intros H. apply matches_Cat_inv in H as (s1 & s2 & -> & H1 & H2).
      apply IH1 in H1. exact (MCat _ _ (String c s1) s2 H1 H2). }
    assert (Hinv : matches (Cat r1 r2) (String c s) ->
                   matches (Cat (deriv c r1) r2) s
                   \/ (matches r1 "" /\ matches (deriv c r2) s)).
    { intros H. apply matches_Cat_inv in H as (s1 & s2 & E & H1 & H2).
      destruct s1 as [|c1 s1]; simpl in E.
      - right. subst s2. split; [exact H1 | now apply IH2].
      - injection E as <- ->. left. apply MCat; [now apply IH1 | exact H2]. }
    destruct (nullable r1) eqn:N.
    + split.
      * intros H. apply matches_Alt_inv in H as [H | H]; [now apply Hcat |].
        apply nullable_matches in N.
        exact (MCat _ _ "" (String c s) N (proj1 (IH2 s) H)).
      * intros H. destruct (Hinv H) as [H' | [_ H']];
          [now apply MAltL | now apply MAltR].
    + split; [exact Hcat |].
      intros H. destruct (Hinv H) as [H' | [H' _]]; [exact H' |].
      apply nullable_matches in H'. congruence.
  - split.
    + intros H. apply matches_Alt_inv in H as [H | H];
        [apply MAltL; now apply IH1 | apply MAltR; now apply IH2].
    + intros H. apply matches_Alt_inv in H as [H | H];
        [apply MAltL; now apply IH1 | apply MAltR; now apply IH2].
  - split.
    + intros H. apply matches_Cat_inv in H as (s1 & s2 & -> & H1 & H2).
      apply IH in H1. exact (MStarApp _ (String c s1) s2 H1 H2).
    + intros H. apply star_cons in H as (s1 & s2 & -> & H1 & H2).
      apply MCat; [now apply IH | exact H2].
Qed.

(** [re_match] finds a match exactly when a prefix of the string is a word
    of the expression. *)
Lemma re_match_prefix (r : regex) (s : string) :
  re_match r s = true <-> exists p q, s = p ++ q /\ matches r p.
Proof.
  revert r. induction s as [|c s IH]; intros r; simpl.
  - rewrite orb_false_r, nullable_matches. split.
    + intros H. now exists "", "".
    + intros (p & q & E & H). symmetry in E.
      apply append_nil_inv in E as [-> _]. exact H.
  - rewrite orb_true_iff, nullable_matches, IH. split.
    + intros [H | (p & q & -> & H)].
      * now exists "", (String c s).
      * exists (String c p), q. split; [reflexivity | now apply deriv_matches].
    + intros (p & q & E & H). destruct p as [|c' p]; simpl in E.
      * now left.
      * injection E as <- ->. right. exists p, q.
        split; [reflexivity | now apply deriv_matches].
Qed.

End ReFacts.

(** ** The seed-URL pattern *)

Section SeedPattern.
Import Re.

Lemma re_match_nullable (r : regex) (s : string) :
  nullable r = true -> re_match r s = true.
Proof. intros N. destruct s; simpl; now rewrite N. Qed.

Ltac invert_matches :=
  repeat match goal with
         | H : matches (Cat _ _) _ |- _ =>
             apply matches_Cat_inv in H as (? & ? & ? & ? & ?)
         | H : matches (Alt _ _) _ |- _ =>
             apply matches_Alt_inv in H as [? | ?]
         | H : matches (Chr _) _ |- _ => apply matches_Chr_inv in H
         | H : matches Eps _ |- _ => apply matches_Eps_inv in H
         | H : matches Dot _ |- _ => apply matches_Dot_inv in H as (? & ? & ?)
         end.

Ltac pick_shape scheme www :=
  solve [ exists scheme, www; do 2 eexists;
          split; [auto | split; [auto | split; [eassumption | reflexivity]]] ].

(** What the pattern of line 96 accepts: [http], an optional [s], [://], an
    optional [www], a dot, [21mm], one character that is not a newline,
    [ru], and anything after that. *)
Lemma seed_url_pattern_accepts (s : string) :
  re_match seed_url_pattern s = true <->
  exists scheme www c rest,
    (scheme = "" \/ scheme = "s") /\ (www = "" \/ www = "www") /\
    c <> newline /\
    s = "http" ++ scheme ++ "://" ++ www ++ ".21mm" ++ String c ("ru" ++ rest).
Proof.
  split.
  - intros H. apply re_match_prefix in H as (p & q & -> & H).
    unfold seed_url_pattern, Seq, Lit, Opt, Plus in H.
    invert_matches; subst; simpl.
    all: first [ pick_shape "s" "www" | pick_shape "s" ""
               | pick_shape "" "www" | pick_shape "" "" ].
  - intros (scheme & www & c & rest & Hs & Hw & Hc & ->).
    apply Ascii.eqb_neq in Hc.
    destruct Hs as [-> | ->], Hw as [-> | ->]; cbn; rewrite Hc; cbn;
      apply re_match_nullable; reflexivity.
Qed.

End SeedPattern.

(** ** Configuration validation *)

Lemma extract_config_file (seeds count : value) :
  _extract_config_content (config_file seeds count)
  = Ok (config_dto seeds count).
Proof. reflexivity. Qed.

(** The scenario of the specification: the sample configuration is accepted,
    and rejected for its article count once that is 0. *)
Example sample_configuration_accepted :
  _validate_config_content (config_file news_seed (VInt 5)) = Ok tt
  /\ _validate_config_content (config_file news_seed (VInt 0))
     = Raise IncorrectNumberOfArticlesError.
Proof. split; reflexivity. Qed.

(** Python booleans are instances of [int]: a count of [true] passes the two
    count checks as 1, a count of [false] is rejected as 0; a count given as
    a string or a float is rejected for its type. *)
Example boolean_and_other_counts :
  _validate_config_content (config_file news_seed (VBool true)) = Ok tt
  /\ _validate_config_content (config_file news_seed (VBool false))
     = Raise IncorrectNumberOfArticlesError
  /\ _validate_config_content (config_file news_seed (VStr "5"))
     = Raise IncorrectNumberOfArticlesError
  /\ _validate_config_content (config_file news_seed (VFloat "5.0"))
     = Raise IncorrectNumberOfArticlesError.
Proof. repeat split; reflexivity. Qed.

(** A seed list with an entry that is not a string makes [re.match] raise
    [TypeError]; an absent key makes the extraction raise [KeyError]. *)
Example faults_before_the_checks :
  _validate_config_content (config_file (VList [VInt 5]) (VInt 5))
  = Raise TypeError
  /\ _validate_config_content (VDict [("seed_urls", news_seed)])
     = Raise (KeyError "total_articles_to_find_and_parse").
Proof. split; reflexivity. Qed.

(** [validate_fields] is the chain of the seven checks. *)
Lemma validate_fields_first_violation (c : ConfigDTO) :
  validate_fields c = first_violation checks_in_order c.
Proof.
  unfold validate_fields, checks_in_order, first_violation, rbind.
  destruct (seed_urls_ok (seed_urls c)) as [[|] | e]; simpl; try reflexivity.
  destruct (isinstance_int (total_articles c)); simpl; try reflexivity.
  destruct (Z.leb_spec (int_of (total_articles c)) 0); simpl;
    try reflexivity.
  destruct (Z.ltb_spec 0 (int_of (total_articles c))); try lia.
  destruct (Z.ltb_spec (int_of (total_articles c)) 1); try lia.
  simpl.
  destruct (Z.leb_spec (int_of (total_articles c)) 150),
           (Z.ltb_spec 150 (int_of (total_articles c)));
    try lia; simpl; try reflexivity.
  destruct (isinstance_dict (headers c)); simpl; try reflexivity.
  destruct (isinstance_str (encoding c)); simpl; try reflexivity.
  destruct (isinstance_int (timeout c)); simpl; try reflexivity.
  destruct (Z.leb_spec 0 (int_of (timeout c))),
           (Z.ltb_spec (int_of (timeout c)) 0); try lia; simpl;
    try reflexivity.
  destruct (Z.leb_spec (int_of (timeout c)) 60),
           (Z.ltb_spec 60 (int_of (timeout c))); try lia; simpl;
    reflexivity.
Qed.

Lemma validate_extracted (file : value) (c : ConfigDTO) :
  _extract_config_content file = Ok c ->
  _validate_config_content file = validate_fields c.
Proof. intros E. unfold _validate_config_content. now rewrite E. Qed.

Lemma seed_check_passed (c : ConfigDTO) :
  seed_urls_ok (seed_urls c) = Ok true ->
  validate_fields c = first_violation (tl checks_in_order) c.
Proof.
  intros H. rewrite validate_fields_first_violation.
  unfold checks_in_order. simpl. now rewrite H.
Qed.



(** C4, as the code has it: a configuration whose [seed_urls] is not a list
    is rejected with [IncorrectSeedURLError]; an empty seed list passes the
    seed check ([all] over no entries is true), and the other six checks
    then decide the validation. *)
Theorem seed_list_shape (file : value) (c : ConfigDTO) :
  _extract_config_content file = Ok c ->
  (isinstance_list (seed_urls c) = false ->
   _validate_config_content file = Raise IncorrectSeedURLError)
  /\ (seed_urls c = VList [] ->
      _validate_config_content file = first_violation (tl checks_in_order) c).
Proof.
  intros E. rewrite (validate_extracted _ _ E). split.
  - intros H. unfold validate_fields.
    destruct (seed_urls c); try discriminate; reflexivity.
  - intros H. apply seed_check_passed. now rewrite H.
Qed.

Lemma seed_list_shape_witness :
  _extract_config_content (config_file (VStr "https://www.21mm.ru/") (VInt 5))
  = Ok (config_dto (VStr "https://www.21mm.ru/") (VInt 5))
  /\ _validate_config_content
       (config_file (VStr "https://www.21mm.ru/") (VInt 5))
     = Raise IncorrectSeedURLError.
Proof.
  split; [reflexivity |].
  apply (proj1 (seed_list_shape
                  (config_file (VStr "https://www.21mm.ru/") (VInt 5))
                  (config_dto (VStr "https://www.21mm.ru/") (VInt 5))
                  eq_refl)).
  reflexivity.
Defined.

(** C4, as stated, fails: a configuration with an empty seed list and valid
    other fields is accepted. *)
Lemma empty_seed_list_accepted :
  _validate_config_content (config_file (VList []) (VInt 5)) = Ok tt
  /\ _validate_config_content (config_file (VList []) (VInt 5))
     <> Raise IncorrectSeedURLError.
Proof. split; [reflexivity | discriminate]. Qed.

Lemma single_seed (s : string) (count : value) :
  validate_fields (config_dto (VList [VStr s]) count)
  = if Re.re_match seed_url_pattern s
    then first_violation (tl checks_in_order)
                         (config_dto (VList [VStr s]) count)
    else Raise IncorrectSeedURLError.
Proof.
  rewrite validate_fields_first_violation. unfold checks_in_order.
  simpl first_violation. simpl seed_urls. simpl seed_urls_ok.
  unfold match_seed_url, rbind.
  destruct (Re.re_match seed_url_pattern s); reflexivity.
Qed.

(** No URL on the bare host passes the pattern: after [://] the pattern
    demands a dot, with or without [www] before it. *)
Lemma bare_host_rejected (rest : string) :
  Re.re_match seed_url_pattern ("https://21mm.ru" ++ rest) = false
  /\ Re.re_match seed_url_pattern ("http://21mm.ru" ++ rest) = false.
Proof.
  split.
  - destruct (Re.re_match seed_url_pattern ("https://21mm.ru" ++ rest))
      eqn:E; [| reflexivity].
    apply seed_url_pattern_accepts in E
      as (sch & www & c & tail & Hs & Hw & _ & E).
    destruct Hs as [-> | ->], Hw as [-> | ->]; simpl in E; discriminate.
  - destruct (Re.re_match seed_url_pattern ("http://21mm.ru" ++ rest))
      eqn:E; [| reflexivity].
    apply seed_url_pattern_accepts in E
      as (sch & www & c & tail & Hs & Hw & _ & E).
    destruct Hs as [-> | ->], Hw as [-> | ->]; simpl in E; discriminate.
Qed.

(** C5 fails on the code.  A seed URL on the bare host, [https://21mm.ru/...]
    or [http://21mm.ru/...], is rejected with [IncorrectSeedURLError],
    while URLs on other hosts are accepted: the pattern puts the dot after
    the optional [www] group, leaves the dot of [21mm.ru] unescaped and is
    matched as a prefix only. *)
Theorem seed_pattern_on_hosts :
  (forall rest count,
     _validate_config_content
       (config_file (VList [VStr ("https://21mm.ru" ++ rest)]) count)
     = Raise IncorrectSeedURLError
     /\ _validate_config_content
          (config_file (VList [VStr ("http://21mm.ru" ++ rest)]) count)
        = Raise IncorrectSeedURLError)
  /\ _validate_config_content
       (config_file (VList [VStr "https://.21mm.ru/news/"]) (VInt 5)) = Ok tt
  /\ _validate_config_content
       (config_file (VList [VStr "https://www.21mm-ru/news/"]) (VInt 5))
     = Ok tt
  /\ _validate_config_content
       (config_file (VList [VStr "https://www.21mm.ru.example.org/"])
                    (VInt 5))
     = Ok tt.
Proof.
  split; [| repeat split; reflexivity].
  intros rest count.
  rewrite !(validate_extracted _ _ (extract_config_file _ _)).
  rewrite !single_seed.
  destruct (bare_host_rejected rest) as [-> ->]. split; reflexivity.
Qed.

(** ** The fetcher *)

Lemma make_request_run (url : value) (config : Config) (w : world) :
  make_request url config w
  = (network w 0 (call_of url config), after_request url config w).
Proof.
  unfold make_request, bind, randrange, sleep, requests_get, log,
    after_request, call_of; simpl.
  rewrite <- app_assoc. reflexivity.
Qed.


Example example_config_built :
  Config__init__ (config_file two_seeds (VInt 5))
  = Ok (example_config two_seeds).
Proof. reflexivity. Qed.

(** ** Discovery *)

(** Which containers the filter of line 225 selects: a [div] whose [class]
    holds the two tokens in this order, however they are spaced; not the two
    tokens in the other order, and not a [div] with a further token. *)
Example link_container_filter :
  Bs4.find_all
    (document
       [ Bs4.Tag "div" [("class", "figcaption promo-link")] [];
         Bs4.Tag "div" [("class", " figcaption   promo-link ")] [];
         Bs4.Tag "div" [("class", "promo-link figcaption")] [];
         Bs4.Tag "div" [("class", "figcaption promo-link wide")] [];
         Bs4.Tag "div" [("id", "figcaption promo-link")] [];
         Bs4.Tag "span" [("class", "figcaption promo-link")] [] ])
    "div" link_container
  = [ Bs4.Tag "div" [("class", "figcaption promo-link")] [];
      Bs4.Tag "div" [("class", " figcaption   promo-link ")] [] ].
Proof. reflexivity. Qed.

Lemma last_cons_default {A} (a d : A) (l : list A) :
  last (a :: l) d = last l a.
Proof.
  revert a d. induction l as [|b l IH]; intros a d; [reflexivity |].
  change (last (a :: b :: l) d) with (last (b :: l) d).
  now rewrite !IH.
Qed.

(** The inner loop ends with the [href] of the last anchor, and raises
    [KeyError] as soon as an anchor has none. *)
Lemma each_link_run (anchors : list Bs4.node) (url : string) :
  Crawler.each_link anchors url
  = if forallb has_href anchors
    then Ok (last (map href_of anchors) url)
    else Raise (KeyError "href").
Proof.
  revert url. induction anchors as [|a anchors IH]; intros url;
    [reflexivity |].
  simpl Crawler.each_link. unfold Bs4.getitem, rbind.
  simpl forallb. simpl map. rewrite last_cons_default.
  assert (Ha : has_href a = match Bs4.attr "href" a with
                           | Some _ => true | None => false end)
    by reflexivity.
  assert (Hh : href_of a = match Bs4.attr "href" a with
                          | Some h => h | None => "" end)
    by reflexivity.
  rewrite Ha, Hh.
  destruct (Bs4.attr "href" a) as [h|]; simpl; [apply IH | reflexivity].
Qed.

Lemma each_link_app (l1 l2 : list Bs4.node) (url : string) :
  Crawler.each_link (l1 ++ l2) url
  = rbind (Crawler.each_link l1 url) (Crawler.each_link l2).
Proof.
  revert url. induction l1 as [|a l1 IH]; intros url; [reflexivity |].
  simpl. destruct (Bs4.getitem a "href"); simpl; [apply IH | reflexivity].
Qed.

(** The two nested loops are one loop over the visited anchors. *)
Lemma each_container_run (links : list Bs4.node) (url : string) :
  Crawler.each_container links url
  = Crawler.each_link (flat_map (fun each => Bs4.select each "a") links) url.
Proof.
  revert url. induction links as [|each links IH]; intros url;
    [reflexivity |].
  simpl. rewrite each_link_app.
  destruct (Crawler.each_link (Bs4.select each "a") url); simpl;
    [apply IH | reflexivity].
Qed.

(** [_extract_url] in closed form. *)
Lemma extract_url_run (self : Crawler.t) (page : Bs4.node) :
  Crawler._extract_url self page
  = if forallb has_href (visited_anchors page)
    then Ok (Crawler.url_pattern self
             ++ last (map href_of (visited_anchors page)) "")
    else Raise (KeyError "href").
Proof.
  unfold Crawler._extract_url. rewrite each_container_run.
  fold link_container. fold (visited_anchors page).
  rewrite each_link_run.
  destruct (forallb has_href (visited_anchors page)); reflexivity.
Qed.

Section Discovery.

Variable lxml : string -> Bs4.node.

(** One turn of the loop of [find_articles]. *)
Lemma each_seed_cons (self : Crawler.t) (url : value) (rest : list value)
    (urls : list string) (w : world) :
  Crawler.each_seed lxml self (url :: rest) urls w
  = let w' := after_request url (Crawler.config self) w in
    match network w 0 (call_of url (Crawler.config self)) with
    | Raise e => (Raise e, w')
    | Ok response =>
        if requests.ok response
        then
          match Crawler._extract_url self (lxml (requests.text response)) with
          | Ok found => Crawler.each_seed lxml self rest (urls ++ [found]) w'
          | Raise e => (Raise e, w')
          end
        else Crawler.each_seed lxml self rest urls w'
    end.
Proof.
  simpl Crawler.each_seed. unfold bind at 1. rewrite make_request_run.
  destruct (network w 0 (call_of url (Crawler.config self))) as [r | e];
    [| reflexivity].
  destruct (requests.ok r); simpl; [| reflexivity].
  unfold bind, lift.
  destruct (Crawler._extract_url self (lxml (requests.text r)));
    reflexivity.
Qed.

End Discovery.

Section Claims.

Variable lxml : string -> Bs4.node.

(** The loop of [find_articles] extends the list by the contributions of the
    seed pages, in seed order, and raises what the first faulting page
    raises. *)
Lemma each_seed_contributions (self : Crawler.t) (seeds : list value)
    (urls : list string) (w : world) :
  fst (Crawler.each_seed lxml self seeds urls w)
  = (cs <- contributions lxml self seeds (network w) ;;
     Ok (urls ++ cs)%list)%result.
Proof.
  revert urls w. induction seeds as [|url rest IH]; intros urls w.
  - simpl. now rewrite app_nil_r.
  - rewrite each_seed_cons. cbv zeta. simpl contributions.
    destruct (network w 0 (call_of url (Crawler.config self))) as [r | e];
      [| reflexivity].
    simpl contribution. destruct (requests.ok r).
    + destruct (Crawler._extract_url self (lxml (requests.text r)))
        as [found | e]; [| reflexivity].
      rewrite IH. simpl.
      destruct (contributions lxml self rest (fun n => network w (S n)));
        simpl; [| reflexivity].
      now rewrite <- app_assoc.
    + rewrite IH. simpl.
      destruct (contributions lxml self rest (fun n => network w (S n)));
        reflexivity.
Qed.

(** [find_articles] as a whole: the crawler's list of URLs grows by the
    contributions of the seed pages. *)
Lemma find_articles_contributions (self : Crawler.t) (w : world) :
  fst (Crawler.find_articles lxml self w)
  = (seeds <- iterate (Crawler.get_search_urls self) ;;
     cs <- contributions lxml self seeds (network w) ;;
     Ok (Crawler.mk (Crawler.config self) (Crawler.urls self ++ cs)
                    (Crawler.url_pattern self)))%result.
Proof.
  unfold Crawler.find_articles, bind, lift, ret.
  destruct (iterate (Crawler.get_search_urls self)) as [seeds | e];
    [| reflexivity].
  simpl rbind.
  pose proof (each_seed_contributions self seeds [] w) as H.
  destruct (Crawler.each_seed lxml self seeds [] w) as [[found | e] w'];
    simpl in H; destruct (contributions lxml self seeds (network w));
    simpl in *; congruence.
Qed.




Lemma parse_run (self : HTMLParser.t) (w : world) :
  HTMLParser.parse lxml self w
  = let w' := after_request (VStr (HTMLParser.full_url self))
                            (HTMLParser.config self) w in
    match network w 0 (call_of (VStr (HTMLParser.full_url self))
                               (HTMLParser.config self)) with
    | Raise e => (Raise e, w')
    | Ok response =>
        if requests.ok response
        then
          let self' := HTMLParser._fill_article_with_text self
                         (lxml (requests.text response)) in
          (Ok (HTMLParser.article self', self'), w')
        else (Ok (HTMLParser.article self, self), w')
    end.
Proof.
  unfold HTMLParser.parse, bind. rewrite make_request_run.
  destruct (network w 0 _) as [r | e]; [| reflexivity].
  destruct (requests.ok r); reflexivity.
Qed.





(** C7: when the fetch of the article page is answered with a status that
    is not a success, [parse] returns the article as [__init__] made it (the
    URL and the id given at construction, the empty text), leaves the parser
    as it was and raises nothing. *)
Theorem parse_fetch_failed (full_url : string) (article_id : Z)
    (config : Config) (w : world) (r : requests.Response) :
  network w 0 (call_of (VStr full_url) config) = Ok r ->
  requests.ok r = false ->
  HTMLParser.parse lxml (HTMLParser.__init__ full_url article_id config) w
  = (Ok (Article.mk full_url article_id "",
         HTMLParser.__init__ full_url article_id config),
     after_request (VStr full_url) config w).
Proof.
  intros Hn Hok. rewrite parse_run. simpl. now rewrite Hn, Hok.
Qed.


Lemma contributions_ext (self : Crawler.t) (seeds : list value)
    (net1 net2 : nat -> requests.call -> result requests.Response) :
  (forall n c, net1 n c = net2 n c) ->
  contributions lxml self seeds net1 = contributions lxml self seeds net2.
Proof.
  revert net1 net2. induction seeds as [|url rest IH]; intros net1 net2 H;
    [reflexivity |].
  simpl. rewrite (H 0).
  rewrite (IH (fun n => net1 (S n)) (fun n => net2 (S n)));
    [reflexivity |].
  intros n c. apply H.
Qed.

(** The contributions of a seed list cut in two: those of the first part,
    then those of the second part on the answers that are left. *)
Lemma contributions_app (self : Crawler.t) (before rest : list value)
    (net : nat -> requests.call -> result requests.Response) :
  contributions lxml self (before ++ rest) net
  = (c1 <- contributions lxml self before net ;;
     c2 <- contributions lxml self rest (answers_from (length before) net) ;;
     Ok (c1 ++ c2)%list)%result.
Proof.
  revert net. induction before as [|url before IH]; intros net.
  - simpl. change (answers_from 0 net) with (fun n => net n).
    destruct (contributions lxml self rest (fun n => net n)); reflexivity.
  - simpl. rewrite IH.
    change (answers_from (length before) (fun n => net (S n)))
      with (answers_from (S (length before)) net).
    destruct (contribution lxml self
                (net 0 (call_of url (Crawler.config self)))) as [c | e];
      [| reflexivity].
    simpl.
    destruct (contributions lxml self before (fun n => net (S n)))
      as [c1 | e]; [| reflexivity].
    simpl.
    destruct (contributions lxml self rest
                (answers_from (S (length before)) net)) as [c2 | e];
      [| reflexivity].
    simpl. now rewrite app_assoc.
Qed.

(** What [find_articles] returns, seen from one seed page that the network
    answers with a success: the URLs the crawler had, those of the seed
    pages before it, the one URL extracted from it, and those of the seed
    pages after it; it raises what the first faulting page raises. *)
Lemma find_articles_around_page (self : Crawler.t)
    (before after : list value) (url : value) (w : world)
    (r : requests.Response) :
  iterate (Crawler.get_search_urls self) = Ok (before ++ url :: after)%list ->
  network w (length before) (call_of url (Crawler.config self)) = Ok r ->
  requests.ok r = true ->
  fst (Crawler.find_articles lxml self w)
  = (cs1 <- contributions lxml self before (network w) ;;
     found <- Crawler._extract_url self (lxml (requests.text r)) ;;
     cs2 <- contributions lxml self after
              (answers_from (S (length before)) (network w)) ;;
     Ok (Crawler.mk (Crawler.config self)
                    (Crawler.urls self ++ cs1 ++ [found] ++ cs2)
                    (Crawler.url_pattern self)))%result.
Proof.
  intros Hi Hn Hok. rewrite find_articles_contributions, Hi.
  cbn [rbind]. rewrite contributions_app. cbn [contributions].
  unfold answers_from at 1. rewrite Nat.add_0_r, Hn.
  cbn [contribution]. rewrite Hok.
  rewrite (contributions_ext self after
             (fun n => answers_from (length before) (network w) (S n))
             (answers_from (S (length before)) (network w)))
    by (intros n c; unfold answers_from; now rewrite Nat.add_succ_r).
  destruct (contributions lxml self before (network w)) as [cs1 | e];
    [| reflexivity].
  cbn [rbind].
  destruct (Crawler._extract_url self (lxml (requests.text r)))
    as [found | e]; [| reflexivity].
  cbn [rbind].
  destruct (contributions lxml self after
              (answers_from (S (length before)) (network w))) as [cs2 | e];
    reflexivity.
Qed.

(** C2, as the code has it: a seed page fetched with success, whose anchors
    inside matching containers all carry an [href], adds exactly one entry
    to the list of URLs that [find_articles] leaves in the crawler, whatever
    the number of matching containers: the origin followed by the [href] of
    the anchor visited last, placed after the entries of the seed pages
    before it and before those of the seed pages after it.  In particular a
    page whose only matching container holds two anchors adds the origin
    followed by the second anchor's [href]. *)
Theorem one_url_per_seed_page (self : Crawler.t)
    (before after : list value) (url : value) (w : world)
    (r : requests.Response) :
  iterate (Crawler.get_search_urls self) = Ok (before ++ url :: after)%list ->
  network w (length before) (call_of url (Crawler.config self)) = Ok r ->
  requests.ok r = true ->
  forallb has_href (visited_anchors (lxml (requests.text r))) = true ->
  fst (Crawler.find_articles lxml self w)
  = (cs1 <- contributions lxml self before (network w) ;;
     cs2 <- contributions lxml self after
              (answers_from (S (length before)) (network w)) ;;
     Ok (Crawler.mk
           (Crawler.config self)
           (Crawler.urls self ++ cs1
            ++ [Crawler.url_pattern self
                ++ last (map href_of
                             (visited_anchors (lxml (requests.text r)))) ""]
            ++ cs2)
           (Crawler.url_pattern self)))%result
  /\ (forall each a1 a2,
        Bs4.find_all (lxml (requests.text r)) "div" link_container = [each] ->
        Bs4.select each "a" = [a1; a2] ->
        fst (Crawler.find_articles lxml self w)
        = (cs1 <- contributions lxml self before (network w) ;;
           cs2 <- contributions lxml self after
                    (answers_from (S (length before)) (network w)) ;;
           Ok (Crawler.mk
                 (Crawler.config self)
                 (Crawler.urls self ++ cs1
                  ++ [Crawler.url_pattern self ++ href_of a2] ++ cs2)
                 (Crawler.url_pattern self)))%result).
Proof.
  intros Hi Hn Hok Hh.
  assert (E : fst (Crawler.find_articles lxml self w)
              = (cs1 <- contributions lxml self before (network w) ;;
                 cs2 <- contributions lxml self after
                          (answers_from (S (length before)) (network w)) ;;
                 Ok (Crawler.mk
                       (Crawler.config self)
                       (Crawler.urls self ++ cs1
                        ++ [Crawler.url_pattern self
                            ++ last (map href_of
                                         (visited_anchors
                                            (lxml (requests.text r)))) ""]
                        ++ cs2)
                       (Crawler.url_pattern self)))%result).
  { rewrite (find_articles_around_page _ _ _ _ _ _ Hi Hn Hok).
    now rewrite extract_url_run, Hh. }
  split; [exact E |].
  intros each a1 a2 Hc Ha. rewrite E.
  unfold visited_anchors. rewrite Hc. simpl flat_map. rewrite Ha.
  reflexivity.
Qed.

(** C3, as the code has it: a seed page fetched with success that holds no
    matching container raises nothing and adds exactly one entry, the bare
    origin, to the list of URLs that [find_articles] leaves in the crawler,
    after the entries of the seed pages before it and before those of the
    seed pages after it. *)
Theorem page_without_containers (self : Crawler.t)
    (before after : list value) (url : value) (w : world)
    (r : requests.Response) :
  Crawler.url_pattern self = "https://www.21mm.ru" ->
  iterate (Crawler.get_search_urls self) = Ok (before ++ url :: after)%list ->
  network w (length before) (call_of url (Crawler.config self)) = Ok r ->
  requests.ok r = true ->
  Bs4.find_all (lxml (requests.text r)) "div" link_container = [] ->
  Crawler._extract_url self (lxml (requests.text r))
  = Ok "https://www.21mm.ru"
  /\ fst (Crawler.find_articles lxml self w)
     = (cs1 <- contributions lxml self before (network w) ;;
        cs2 <- contributions lxml self after
                 (answers_from (S (length before)) (network w)) ;;
        Ok (Crawler.mk (Crawler.config self)
                       (Crawler.urls self ++ cs1
                        ++ ["https://www.21mm.ru"] ++ cs2)
                       "https://www.21mm.ru"))%result.
Proof.
  intros Hp Hi Hn Hok Hc.
  assert (Hv : visited_anchors (lxml (requests.text r)) = [])
    by (unfold visited_anchors; now rewrite Hc).
  assert (He : Crawler._extract_url self (lxml (requests.text r))
               = Ok "https://www.21mm.ru")
    by (rewrite extract_url_run, Hv, Hp; reflexivity).
  split; [exact He |].
  rewrite (find_articles_around_page _ _ _ _ _ _ Hi Hn Hok), He, Hp.
  reflexivity.
Qed.

(** C10: the entry that a fetched seed page adds to the list of URLs that
    [find_articles] leaves in the crawler is always the fixed string
    [https://www.21mm.ru] followed, by plain concatenation, by the [href]
    extracted last; the page adds nothing only when a visited anchor has no
    [href], and [find_articles] then raises [KeyError].  An [href] that is
    already an absolute URL of the site gives an entry with the origin
    twice, and a page on which no matching container holds an anchor gives
    the bare origin. *)
Theorem appended_url_is_concatenation (self : Crawler.t)
    (before after : list value) (url : value) (w : world)
    (r : requests.Response) :
  Crawler.url_pattern self = "https://www.21mm.ru" ->
  iterate (Crawler.get_search_urls self) = Ok (before ++ url :: after)%list ->
  network w (length before) (call_of url (Crawler.config self)) = Ok r ->
  requests.ok r = true ->
  fst (Crawler.find_articles lxml self w)
  = (cs1 <- contributions lxml self before (network w) ;;
     if forallb has_href (visited_anchors (lxml (requests.text r)))
     then
       cs2 <- contributions lxml self after
                (answers_from (S (length before)) (network w)) ;;
       Ok (Crawler.mk
             (Crawler.config self)
             (Crawler.urls self ++ cs1
              ++ ["https://www.21mm.ru"
                  ++ last (map href_of
                               (visited_anchors (lxml (requests.text r))))
                          ""]
              ++ cs2)
             "https://www.21mm.ru")
     else Raise (KeyError "href"))%result
  /\ (forall path,
        forallb has_href (visited_anchors (lxml (requests.text r))) = true ->
        last (map href_of (visited_anchors (lxml (requests.text r)))) ""
        = "https://www.21mm.ru" ++ path ->
        fst (Crawler.find_articles lxml self w)
        = (cs1 <- contributions lxml self before (network w) ;;
           cs2 <- contributions lxml self after
                    (answers_from (S (length before)) (network w)) ;;
           Ok (Crawler.mk
                 (Crawler.config self)
                 (Crawler.urls self ++ cs1
                  ++ ["https://www.21mm.ru" ++ "https://www.21mm.ru" ++ path]
                  ++ cs2)
                 "https://www.21mm.ru"))%result)
  /\ (visited_anchors (lxml (requests.text r)) = [] ->
      fst (Crawler.find_articles lxml self w)
      = (cs1 <- contributions lxml self before (network w) ;;
         cs2 <- contributions lxml self after
                  (answers_from (S (length before)) (network w)) ;;
         Ok (Crawler.mk (Crawler.config self)
                        (Crawler.urls self ++ cs1
                         ++ ["https://www.21mm.ru"] ++ cs2)
                        "https://www.21mm.ru"))%result).
Proof.
  intros Hp Hi Hn Hok.
  pose proof (find_articles_around_page _ _ _ _ _ _ Hi Hn Hok) as E.
  rewrite extract_url_run, Hp in E.
  split; [| split].
  - rewrite E.
    destruct (forallb has_href (visited_anchors (lxml (requests.text r))));
      reflexivity.
  - intros path Hh El. rewrite E, Hh, El. reflexivity.
  - intros Hv. rewrite E, Hv. reflexivity.
Qed.

End Claims.

(** ** The claims on concrete runs *)

Lemma parse_fetch_failed_witness :
  network world_refused 0
          (call_of (VStr article_url) (example_config two_seeds))
  = Ok not_found_response
  /\ requests.ok not_found_response = false
  /\ fst (HTMLParser.parse example_lxml
            (HTMLParser.__init__ article_url 7 (example_config two_seeds))
            world_refused)
     = Ok (Article.mk article_url 7 "",
           HTMLParser.__init__ article_url 7 (example_config two_seeds)).
Proof.
  split; [reflexivity | split; [reflexivity |]].
  rewrite (parse_fetch_failed example_lxml article_url 7
             (example_config two_seeds) world_refused not_found_response
             eq_refl eq_refl).
  reflexivity.
Defined.



Lemma one_url_per_seed_page_witness :
  iterate (Crawler.get_search_urls example_crawler)
  = Ok ([VStr news_url] ++ VStr sport_url :: [])%list
  /\ network world_bare_then_found (length [VStr news_url])
             (call_of (VStr sport_url) (Crawler.config example_crawler))
     = Ok (found_response markup_two_anchors)
  /\ requests.ok (found_response markup_two_anchors) = true
  /\ forallb has_href
       (visited_anchors
          (example_lxml (requests.text (found_response markup_two_anchors))))
     = true
  /\ fst (Crawler.find_articles example_lxml example_crawler
            world_bare_then_found)
     = Ok (Crawler.mk (example_config two_seeds)
                      ["https://www.21mm.ru"; "https://www.21mm.ru/news/2"]
                      "https://www.21mm.ru").
Proof.
  split; [reflexivity |].
  split; [reflexivity | split; [reflexivity | split; [reflexivity |]]].
  rewrite (proj1 (one_url_per_seed_page example_lxml example_crawler
                    [VStr news_url] [] (VStr sport_url)
                    world_bare_then_found
                    (found_response markup_two_anchors)
                    eq_refl eq_refl eq_refl eq_refl)).
  reflexivity.
Defined.

(** C2, as stated, fails: a page with two matching containers, of one anchor
    each, adds one URL, the last container's, not one URL per container. *)
Lemma two_containers_one_url :
  length (Bs4.find_all page_two_containers "div" link_container) = 2
  /\ example_lxml markup_two_containers = page_two_containers
  /\ fst (Crawler.find_articles example_lxml news_crawler
            world_two_containers)
     = Ok (Crawler.mk (example_config one_seed)
                      ["https://www.21mm.ru/news/2"]
                      "https://www.21mm.ru")
  /\ fst (Crawler.find_articles example_lxml news_crawler
            world_two_containers)
     <> Ok (Crawler.mk (example_config one_seed)
                       ["https://www.21mm.ru/news/1";
                        "https://www.21mm.ru/news/2"]
                       "https://www.21mm.ru").
Proof. repeat split; try reflexivity. discriminate. Qed.

Lemma page_without_containers_witness :
  Crawler.url_pattern example_crawler = "https://www.21mm.ru"
  /\ iterate (Crawler.get_search_urls example_crawler)
     = Ok ([VStr news_url] ++ VStr sport_url :: [])%list
  /\ network world_found_then_bare (length [VStr news_url])
             (call_of (VStr sport_url) (Crawler.config example_crawler))
     = Ok (found_response markup_no_container)
  /\ requests.ok (found_response markup_no_container) = true
  /\ Bs4.find_all
       (example_lxml (requests.text (found_response markup_no_container)))
       "div" link_container
     = []
  /\ fst (Crawler.find_articles example_lxml example_crawler
            world_found_then_bare)
     = Ok (Crawler.mk (example_config two_seeds)
                      ["https://www.21mm.ru/news/2"; "https://www.21mm.ru"]
                      "https://www.21mm.ru").
Proof.
  split; [reflexivity | split; [reflexivity |]].
  split; [reflexivity | split; [reflexivity | split; [reflexivity |]]].
  rewrite (proj2 (page_without_containers example_lxml example_crawler
                    [VStr news_url] [] (VStr sport_url)
                    world_found_then_bare
                    (found_response markup_no_container)
                    eq_refl eq_refl eq_refl eq_refl eq_refl)).
  reflexivity.
Defined.

(** C3, as stated, fails: a fetched page without any matching container
    leaves one entry, the bare origin, in the list of URLs. *)
Lemma no_container_one_url :
  Bs4.find_all page_no_container "div" link_container = []
  /\ example_lxml markup_no_container = page_no_container
  /\ fst (Crawler.find_articles example_lxml news_crawler world_no_container)
     = Ok (Crawler.mk (example_config one_seed) ["https://www.21mm.ru"]
                      "https://www.21mm.ru")
  /\ fst (Crawler.find_articles example_lxml news_crawler world_no_container)
     <> Ok (Crawler.mk (example_config one_seed) [] "https://www.21mm.ru").
Proof. repeat split; try reflexivity. discriminate. Qed.

Lemma appended_url_is_concatenation_witness :
  Crawler.url_pattern example_crawler = "https://www.21mm.ru"
  /\ iterate (Crawler.get_search_urls example_crawler)
     = Ok ([] ++ VStr news_url :: [VStr sport_url])%list
  /\ network world_absolute_then_found (@length value [])
             (call_of (VStr news_url) (Crawler.config example_crawler))
     = Ok (found_response markup_absolute_href)
  /\ requests.ok (found_response markup_absolute_href) = true
  /\ fst (Crawler.find_articles example_lxml example_crawler
            world_absolute_then_found)
     = Ok (Crawler.mk (example_config two_seeds)
                      ["https://www.21mm.ruhttps://www.21mm.ru/news/1";
                       "https://www.21mm.ru/news/2"]
                      "https://www.21mm.ru").
Proof.
  split; [reflexivity | split; [reflexivity |]].
  split; [reflexivity | split; [reflexivity |]].
  rewrite (proj1 (appended_url_is_concatenation example_lxml example_crawler
                    [] [VStr sport_url] (VStr news_url)
                    world_absolute_then_found
                    (found_response markup_absolute_href)
                    eq_refl eq_refl eq_refl eq_refl)).
  reflexivity.
Defined.

(** ** Preparing the storage directory *)

Lemma assoc_set_entry (x : string) (n : os.inode)
    (entries : list (string * os.inode)) :
  assoc x (os.set_entry x n entries) = Some n.
Proof.
  induction entries as [|[y m] entries IH]; simpl.
  - now rewrite String.eqb_refl.
  - destruct (String.eqb x y) eqn:E; simpl; rewrite E; [reflexivity | exact IH].
Qed.

Lemma assoc_app_new {A} (x : string) (a : A) (kv : list (string * A)) :
  assoc x kv = None -> assoc x (kv ++ [(x, a)]) = Some a.
Proof.
  induction kv as [|[y b] kv IH]; simpl.
  - now rewrite String.eqb_refl.
  - destruct (String.eqb x y); [discriminate | exact IH].
Qed.

Lemma lookup_fresh (p : list string) : os.lookup (os.fresh p) p = Some (os.Dir []).
Proof.
  induction p as [|x p IH]; simpl; [reflexivity |].
  now rewrite String.eqb_refl.
Qed.

(** Where [os.makedirs] succeeds, the path is an empty directory
    afterwards. *)
Lemma makedirs_at_creates (p : list string) (n n' : os.inode) :
  os.makedirs_at n p = Ok n' -> os.lookup n' p = Some (os.Dir []).
Proof.
  revert n n'. induction p as [|x p IH]; intros n n' H; simpl in H;
    [discriminate |].
  destruct n as [|entries]; [discriminate |].
  destruct (assoc x entries) as [child|] eqn:E.
  - destruct (os.makedirs_at child p) as [child'|] eqn:M; simpl in H;
      [| discriminate].
    injection H as <-. simpl. rewrite assoc_set_entry.
    now apply IH with child.
  - injection H as <-. simpl. rewrite (assoc_app_new _ _ _ E).
    apply lookup_fresh.
Qed.

(** [os.makedirs] succeeds on a path that no file stands above: missing
    directories above the path are created with it. *)
Lemma makedirs_at_succeeds (p : list string) (n : os.inode) :
  os.lookup n p = None ->
  (forall q, (exists q', p = q ++ q')%list -> os.lookup n q <> Some os.File) ->
  exists n', os.makedirs_at n p = Ok n'.
Proof.
  revert n. induction p as [|x p IH]; intros n Hl Hf; simpl in *;
    [discriminate |].
  destruct n as [|entries].
  - exfalso. apply (Hf []); [now exists (x :: p) | reflexivity].
  - destruct (assoc x entries) as [child|] eqn:E; [| eauto].
    destruct (IH child Hl) as (child' & ->); [| simpl; eauto].
    intros q (q' & ->) Hq. apply (Hf (x :: q)).
    + now exists q'.
    + simpl. now rewrite E.
Qed.

(** The first half of the contract: on a path that does not exist (and that
    no file stands above), [prepare_environment] creates the directory, with
    its parents, and leaves it empty. *)
Lemma prepare_creates (base_path : os.path) (f : os.fs) :
  os.lookup (os.root f) (os.resolve f base_path) = None ->
  (forall q, (exists q', os.resolve f base_path = q ++ q')%list ->
             os.lookup (os.root f) q <> Some os.File) ->
  exists f',
    prepare_environment base_path f = (Ok tt, f')
    /\ os.cwd f' = os.cwd f
    /\ os.lookup (os.root f') (os.resolve f base_path) = Some (os.Dir []).
Proof.
  intros Hl Hf.
  destruct (makedirs_at_succeeds _ _ Hl Hf) as (n' & M).
  exists (os.mkFs n' (os.cwd f)).
  unfold prepare_environment, bind, os.path_exists, os.makedirs, os.on_root.
  rewrite Hl. simpl. rewrite M. repeat split.
  now apply makedirs_at_creates with (os.root f).
Qed.

(** The idempotence of the contract: on a directory that exists and is
    empty, [prepare_environment] changes nothing and raises nothing, however
    often it is called. *)
Lemma prepare_on_empty (base_path : os.path) (f : os.fs) :
  os.lookup (os.root f) (os.resolve f base_path) = Some (os.Dir []) ->
  prepare_environment base_path f = (Ok tt, f)
  /\ bind (prepare_environment base_path)
          (fun _ => prepare_environment base_path) f
     = (Ok tt, f).
Proof.
  intros H.
  assert (E : prepare_environment base_path f = (Ok tt, f)).
  { unfold prepare_environment, bind, os.path_exists, os.listdir.
    rewrite H. simpl. rewrite H. reflexivity. }
  split; [exact E |]. unfold bind at 1. now rewrite E.
Qed.

Lemma each_file_absent (files : list string) (f : os.fs) :
  (forall name, In name files ->
                os.lookup (os.root f) (os.cwd f ++ [name]) = None) ->
  each_file files f = (Ok tt, f).
Proof.
  induction files as [|file files IH]; intros H; [reflexivity |].
  simpl. unfold bind at 1, os.path_exists, os.resolve; simpl.
  rewrite (H file) by now left.
  unfold bind at 1, ret. apply IH. intros name Hin. apply H. now right.
Qed.

(** The entries of the storage directory are looked up and removed under the
    working directory, not under the storage directory: when none of their
    names exists in the working directory, nothing is removed. *)
Lemma prepare_keeps_storage (base_path : os.path) (f : os.fs)
    (entries : list (string * os.inode)) :
  os.lookup (os.root f) (os.resolve f base_path) = Some (os.Dir entries) ->
  (forall name, In name (map fst entries) ->
                os.lookup (os.root f) (os.cwd f ++ [name]) = None) ->
  prepare_environment base_path f = (Ok tt, f).
Proof.
  intros H Habs.
  unfold prepare_environment, bind, os.path_exists, os.listdir.
  rewrite H. simpl. rewrite H.
  now apply each_file_absent.
Qed.

Example storage_created :
  exists f',
    prepare_environment (os.mkPath false ["tmp"; "articles"]) empty_project_fs
    = (Ok tt, f')
    /\ os.listdir (os.mkPath true ["project"; "tmp"; "articles"]) f' = (Ok [], f')
    /\ prepare_environment (os.mkPath false ["tmp"; "articles"]) f'
       = (Ok tt, f').
Proof. eexists. repeat split. Qed.

(** C6 fails on the code.  With the storage directory [/tmp/articles]
    holding two files of an earlier run and the process working in
    [/project], [prepare_environment] returns without an error and without
    removing anything, so the directory still lists both files; and when the
    working directory holds a file with the name of one of them, it is that
    file of the working directory which is removed. *)
Theorem stale_files_survive :
  prepare_environment assets stale_fs = (Ok tt, stale_fs)
  /\ os.listdir assets stale_fs = (Ok ["1_raw.txt"; "2_raw.txt"], stale_fs)
  /\ prepare_environment assets homonym_fs = (Ok tt, homonym_fs_after)
  /\ os.listdir assets homonym_fs_after
     = (Ok ["1_raw.txt"; "2_raw.txt"], homonym_fs_after).
Proof. repeat split; reflexivity. Qed.

(** * Further properties of the module *)

(** ** Configuration: what is accepted, and what an accepted one holds *)

Lemma all_match_true (l : list value) :
  all_match l = Ok true <->
  exists seeds,
    l = map VStr seeds
    /\ Forall (fun s => Re.re_match seed_url_pattern s = true) seeds.
Proof.
  induction l as [|v l IH]; simpl.
  - split; [intros _; exists []; split; [reflexivity | constructor] | reflexivity].
  - split.
    + destruct v; simpl; try discriminate.
      destruct (Re.re_match seed_url_pattern s) eqn:E; [| discriminate].
      intros H. apply IH in H as (seeds & -> & F).
      exists (s :: seeds). split; [reflexivity | now constructor].
    + intros ([|s seeds] & E & F); [discriminate |].
      injection E as -> ->. inversion F as [|? ? Hs F']; subst. simpl.
      rewrite Hs. apply IH. now exists seeds.
Qed.

Lemma seed_urls_ok_true (v : value) :
  seed_urls_ok v = Ok true <->
  exists seeds,
    v = VList (map VStr seeds)
    /\ Forall (fun s => Re.re_match seed_url_pattern s = true) seeds.
Proof.
  destruct v; simpl;
    try (split; [discriminate | intros (seeds & E & _); discriminate]).
  rewrite all_match_true. split.
  - intros (seeds & -> & F). now exists seeds.
  - intros (seeds & E & F). injection E as ->. now exists seeds.
Qed.

(** The checks pass exactly on the valid fields. *)
Lemma validate_fields_ok_iff (c : ConfigDTO) :
  validate_fields c = Ok tt <-> valid_fields c.
Proof.
  unfold valid_fields. rewrite <- seed_urls_ok_true. unfold validate_fields.
  split.
  - destruct (seed_urls_ok (seed_urls c)) as [[|] | e]; simpl;
      try discriminate.
    repeat match goal with
           | |- context [if ?b then _ else _] =>
               destruct b eqn:?; try discriminate
           end.
    intros _.
    repeat match goal with
           | H : _ || _ = false |- _ => apply orb_false_iff in H as [? ?]
           | H : negb _ = false |- _ => apply negb_false_iff in H
           | H : _ && _ = true |- _ => apply andb_true_iff in H as [? ?]
           | H : (_ <? _)%Z = true |- _ => apply Z.ltb_lt in H
           | H : (_ <=? _)%Z = true |- _ => apply Z.leb_le in H
           | H : (_ <=? _)%Z = false |- _ => apply Z.leb_gt in H
           end.
    repeat split; auto; lia.
  - intros (Hs & Hi & Hn & Hh & He & Ht & Htr & Hv & Hm).
    rewrite Hs, Hi, Hh, He, Ht, Hv, Hm. simpl.
    destruct (Z.leb_spec (int_of (total_articles c)) 0); [lia |].
    destruct (Z.ltb_spec 0 (int_of (total_articles c))); [| lia].
    destruct (Z.leb_spec (int_of (total_articles c)) 150); [| lia].
    destruct (Z.leb_spec 0 (int_of (timeout c))); [| lia].
    destruct (Z.leb_spec (int_of (timeout c)) 60); [| lia].
    reflexivity.
Qed.

(** X1: [_validate_config_content] accepts a configuration file exactly when
    the seven keys can be read and the values are valid: the seeds a list of
    strings that all match the seed pattern (an empty list included), the
    article count an [int] in 1..150, the headers a dictionary, the encoding
    a string, the timeout an [int] in 0..60, and both flags booleans. *)
Theorem validation_accepts_iff (file : value) :
  _validate_config_content file = Ok tt <->
  exists c, _extract_config_content file = Ok c /\ valid_fields c.
Proof.
  unfold _validate_config_content. split.
  - destruct (_extract_config_content file) as [c | e]; simpl;
      [| discriminate].
    intros H. exists c. split; [reflexivity | now apply validate_fields_ok_iff].
  - intros (c & -> & H). simpl. now apply validate_fields_ok_iff.
Qed.

Lemma validation_fields_of_file (file : value) (c : ConfigDTO) :
  _validate_config_content file = Ok tt ->
  _extract_config_content file = Ok c ->
  valid_fields (mkConfigDTO (seed_urls c) (total_articles c) (headers c)
                            (encoding c) (timeout c)
                            (should_verify_certificate c) (headless_mode c)).
Proof.
  intros V E. unfold _validate_config_content in V. rewrite E in V.
  simpl in V. apply validate_fields_ok_iff in V. exact V.
Qed.

Lemma extract_reads_keys (file : value) (c : ConfigDTO) :
  _extract_config_content file = Ok c ->
  getitem file "seed_urls" = Ok (seed_urls c)
  /\ getitem file "total_articles_to_find_and_parse" = Ok (total_articles c)
  /\ getitem file "headers" = Ok (headers c)
  /\ getitem file "encoding" = Ok (encoding c)
  /\ getitem file "timeout" = Ok (timeout c)
  /\ getitem file "should_verify_certificate"
     = Ok (should_verify_certificate c)
  /\ getitem file "headless_mode" = Ok (headless_mode c).
Proof.
  unfold _extract_config_content, rbind.
  destruct (getitem file "seed_urls"); [| discriminate].
  destruct (getitem file "total_articles_to_find_and_parse");
    [| discriminate].
  destruct (getitem file "headers"); [| discriminate].
  destruct (getitem file "encoding"); [| discriminate].
  destruct (getitem file "timeout"); [| discriminate].
  destruct (getitem file "should_verify_certificate"); [| discriminate].
  destruct (getitem file "headless_mode"); [| discriminate].
  intros H. injection H as <-. simpl. repeat split.
Qed.

Lemma config_init_run (file : value) :
  Config__init__ file
  = match _validate_config_content file, _extract_config_content file with
    | Ok _, Ok dto =>
        Ok (mkConfig dto (seed_urls dto) (total_articles dto) (headers dto)
                     (encoding dto) (timeout dto)
                     (should_verify_certificate dto) (headless_mode dto))
    | Ok _, Raise e => Raise e
    | Raise e, _ => Raise e
    end.
Proof.
  unfold Config__init__, rbind.
  destruct (_validate_config_content file); [| reflexivity].
  destruct (_extract_config_content file); reflexivity.
Qed.

(** X2: a [Config] that [Config.__init__] returns gives back, through its
    seven getters, the values the configuration file holds under the seven
    keys, and these values are valid: whoever holds a [Config] holds a list
    of seed strings matching the pattern, a count in 1..150, a timeout in
    0..60, a dictionary of headers, a string encoding and boolean flags. *)
Theorem config_getters_round_trip (file : value) (cfg : Config) :
  Config__init__ file = Ok cfg ->
  getitem file "seed_urls" = Ok (get_seed_urls cfg)
  /\ getitem file "total_articles_to_find_and_parse"
     = Ok (get_num_articles cfg)
  /\ getitem file "headers" = Ok (get_headers cfg)
  /\ getitem file "encoding" = Ok (get_encoding cfg)
  /\ getitem file "timeout" = Ok (get_timeout cfg)
  /\ getitem file "should_verify_certificate"
     = Ok (get_verify_certificate cfg)
  /\ getitem file "headless_mode" = Ok (get_headless_mode cfg)
  /\ valid_fields
       (mkConfigDTO (get_seed_urls cfg) (get_num_articles cfg)
                    (get_headers cfg) (get_encoding cfg) (get_timeout cfg)
                    (get_verify_certificate cfg) (get_headless_mode cfg)).
Proof.
  rewrite config_init_run.
  destruct (_validate_config_content file) as [[] | e] eqn:V; [| discriminate].
  destruct (_extract_config_content file) as [dto | e] eqn:E; [| discriminate].
  intros H. injection H as <-.
  unfold get_seed_urls, get_num_articles, get_headers, get_encoding,
    get_timeout, get_verify_certificate, get_headless_mode; simpl.
  destruct (extract_reads_keys _ _ E) as (H1 & H2 & H3 & H4 & H5 & H6 & H7).
  repeat (split; [assumption |]).
  apply validation_fields_of_file with file; assumption.
Qed.

Lemma config_getters_round_trip_witness :
  Config__init__ (config_file two_seeds (VInt 5))
  = Ok (example_config two_seeds)
  /\ getitem (config_file two_seeds (VInt 5)) "timeout"
     = Ok (get_timeout (example_config two_seeds))
  /\ get_timeout (example_config two_seeds) = VInt 5.
Proof.
  split; [reflexivity | split; [| reflexivity]].
  destruct (config_getters_round_trip (config_file two_seeds (VInt 5))
              (example_config two_seeds) eq_refl)
    as (_ & _ & _ & _ & H & _).
  exact H.
Defined.

(** ** Configuration: absent keys *)

Lemma getitem_dict (kv : list (string * value)) (key : string) :
  getitem (VDict kv) key
  = if has_key kv key
    then getitem (VDict kv) key
    else Raise (KeyError key).
Proof.
  unfold has_key, getitem. destruct (assoc key kv); reflexivity.
Qed.

Lemma getitem_present (kv : list (string * value)) (key : string) :
  has_key kv key = true -> exists v, getitem (VDict kv) key = Ok v.
Proof.
  unfold has_key, getitem. destruct (assoc key kv) as [v|];
    [eauto | discriminate].
Qed.

Ltac read_key kv k H :=
  let E := fresh "E" in
  destruct (has_key kv k) eqn:E; cbn [negb] in H;
  [ destruct (getitem_present _ _ E) as (? & ->); cbn [rbind]
  | injection H as <-; rewrite getitem_dict, E; reflexivity ].

Lemma extract_missing_key (kv : list (string * value)) (key : string) :
  find (fun k => negb (has_key kv k)) required_keys = Some key ->
  _extract_config_content (VDict kv) = Raise (KeyError key).
Proof.
  unfold required_keys, _extract_config_content. cbn [find]. intros H.
  read_key kv "seed_urls" H.
  read_key kv "total_articles_to_find_and_parse" H.
  read_key kv "headers" H.
  read_key kv "encoding" H.
  read_key kv "timeout" H.
  read_key kv "should_verify_certificate" H.
  read_key kv "headless_mode" H.
  discriminate.
Qed.

(** X3: a configuration file that lacks one of the seven keys makes the
    extraction, the validation and [Config.__init__] raise [KeyError] for
    the first absent key, in the order the keys are read, before any value
    is checked (so also when a value that is present is invalid); a file
    that is not a dictionary makes all three raise [TypeError]. *)
Theorem absent_key_raises_key_error (kv : list (string * value))
    (key : string) :
  find (fun k => negb (has_key kv k)) required_keys = Some key ->
  _extract_config_content (VDict kv) = Raise (KeyError key)
  /\ _validate_config_content (VDict kv) = Raise (KeyError key)
  /\ Config__init__ (VDict kv) = Raise (KeyError key)
  /\ (forall file,
        isinstance_dict file = false ->
        _extract_config_content file = Raise TypeError
        /\ _validate_config_content file = Raise TypeError
        /\ Config__init__ file = Raise TypeError).
Proof.
  intros H. pose proof (extract_missing_key _ _ H) as E.
  split; [exact E |].
  split; [unfold _validate_config_content; now rewrite E |].
  split.
  - rewrite config_init_run. unfold _validate_config_content.
    now rewrite E.
  - intros file Hd.
    assert (E' : _extract_config_content file = Raise TypeError)
      by (destruct file; try discriminate; reflexivity).
    split; [exact E' |].
    split; [unfold _validate_config_content; now rewrite E' |].
    rewrite config_init_run. unfold _validate_config_content.
    now rewrite E'.
Qed.

Lemma absent_key_raises_key_error_witness :
  find (fun k => negb (has_key [("seed_urls", VInt 0);
                               ("headers", VDict [])] k))
       required_keys
  = Some "total_articles_to_find_and_parse"
  /\ Config__init__ (VDict [("seed_urls", VInt 0); ("headers", VDict [])])
     = Raise (KeyError "total_articles_to_find_and_parse").
Proof.
  split; [reflexivity |].
  destruct (absent_key_raises_key_error
              [("seed_urls", VInt 0); ("headers", VDict [])]
              "total_articles_to_find_and_parse" eq_refl)
    as (_ & _ & H & _).
  exact H.
Defined.

(** ** Configuration: the seed check, spelled out *)

Lemma seed_strings_check (seeds : list string) :
  seed_urls_ok (VList (map VStr seeds))
  = Ok (forallb (Re.re_match seed_url_pattern) seeds).
Proof.
  simpl. induction seeds as [|s seeds IH]; [reflexivity |].
  simpl. destruct (Re.re_match seed_url_pattern s); [exact IH | reflexivity].
Qed.

Lemma shape_matches (s : string) :
  Re.re_match seed_url_pattern s = true <-> site_url_shape s.
Proof. apply seed_url_pattern_accepts. Qed.

Lemma checks_after_seeds (c : ConfigDTO) :
  first_violation (tl checks_in_order) c <> Raise IncorrectSeedURLError.
Proof.
  simpl.
  repeat match goal with
         | |- context [if ?b then _ else _] => destruct b
         end; discriminate.
Qed.

(** X4: for a configuration whose seeds are a list of strings, the
    validation raises [IncorrectSeedURLError] exactly when some seed lacks
    the shape the pattern of line 96 spells out, [http], an optional [s],
    [://], an optional [www], a dot, [21mm], any one character but a
    newline, [ru]; whatever follows [ru] is not looked at. *)
Theorem seed_error_iff_shape (file : value) (c : ConfigDTO)
    (seeds : list string) :
  _extract_config_content file = Ok c ->
  seed_urls c = VList (map VStr seeds) ->
  (_validate_config_content file = Raise IncorrectSeedURLError <->
   exists s, In s seeds /\ ~ site_url_shape s)
  /\ (forall s rest,
        Re.re_match seed_url_pattern s = true ->
        Re.re_match seed_url_pattern (s ++ rest) = true).
Proof.
  intros E Hs. rewrite (validate_extracted _ _ E). split.
  - rewrite validate_fields_first_violation. unfold checks_in_order.
    cbn [first_violation]. rewrite Hs, seed_strings_check. cbn [rbind].
    destruct (forallb (Re.re_match seed_url_pattern) seeds) eqn:F;
      cbn [negb].
    + split.
      * intros H. now apply checks_after_seeds in H.
      * intros (s & Hin & Hn). exfalso. apply Hn, shape_matches.
        rewrite forallb_forall in F. now apply F.
    + split; [| reflexivity]. intros _.
      assert (X : exists s, In s seeds
                            /\ Re.re_match seed_url_pattern s = false).
      { clear Hs. induction seeds as [|s seeds IH]; [discriminate |].
        simpl in F. destruct (Re.re_match seed_url_pattern s) eqn:M.
        - destruct (IH F) as (s' & Hin & Hm). exists s'. split;
            [now right | exact Hm].
        - exists s. split; [now left | exact M]. }
      destruct X as (s & Hin & Hm). exists s. split; [exact Hin |].
      intros Hshape. apply shape_matches in Hshape. congruence.
  - intros s rest H. apply re_match_prefix in H as (p & q & -> & H).
    apply re_match_prefix. exists p, (q ++ rest). split; [| exact H].
    clear H. induction p as [|a p IHp]; simpl; [reflexivity | now rewrite IHp].
Qed.

Lemma seed_error_iff_shape_witness :
  _extract_config_content
    (config_file (VList (map VStr ["https://21mm.ru/news/"])) (VInt 5))
  = Ok (config_dto (VList (map VStr ["https://21mm.ru/news/"])) (VInt 5))
  /\ (_validate_config_content
        (config_file (VList (map VStr ["https://21mm.ru/news/"])) (VInt 5))
      = Raise IncorrectSeedURLError <->
      exists s, In s ["https://21mm.ru/news/"] /\ ~ site_url_shape s).
Proof.
  split; [reflexivity |].
  exact (proj1 (seed_error_iff_shape
                  (config_file (VList (map VStr ["https://21mm.ru/news/"]))
                               (VInt 5))
                  (config_dto (VList (map VStr ["https://21mm.ru/news/"]))
                              (VInt 5))
                  ["https://21mm.ru/news/"] eq_refl eq_refl)).
Defined.

(** ** Discovery: what is requested and what is found *)

Lemma requested_app (t1 t2 : list event) :
  requested (t1 ++ t2) = (requested t1 ++ requested t2)%list.
Proof. unfold requested. apply flat_map_app. Qed.

Lemma requested_after_request (url : value) (config : Config) (w : world) :
  requested (trace (after_request url config w))
  = (requested (trace w) ++ [call_of url config])%list.
Proof. unfold after_request; simpl. now rewrite requested_app. Qed.

Section Runs.

Variable lxml : string -> Bs4.node.

(** The loop of [find_articles] requests the seeds in order, one GET each,
    and stops at the first fault. *)
Lemma each_seed_requests (self : Crawler.t) (seeds : list value)
    (urls : list string) (w : world) :
  exists k,
    k <= length seeds
    /\ requested (trace (snd (Crawler.each_seed lxml self seeds urls w)))
       = (requested (trace w)
          ++ map (fun url => call_of url (Crawler.config self))
                 (firstn k seeds))%list
    /\ (forall found,
          fst (Crawler.each_seed lxml self seeds urls w) = Ok found ->
          k = length seeds).
Proof.
  revert urls w. induction seeds as [|url rest IH]; intros urls w.
  - exists 0. simpl. rewrite app_nil_r. repeat split; auto.
  - assert (Hstop : forall e,
               exists k,
                 k <= length (url :: rest)
                 /\ requested
                      (trace (snd (@Raise (list string) e,
                                   after_request url (Crawler.config self) w)))
                    = (requested (trace w)
                       ++ map (fun url => call_of url (Crawler.config self))
                              (firstn k (url :: rest)))%list
                 /\ (forall found,
                       fst (@Raise (list string) e,
                            after_request url (Crawler.config self) w)
                       = Ok found ->
                       k = length (url :: rest))).
    { intros e. exists 1. cbn [fst snd firstn map length].
      rewrite requested_after_request.
      split; [lia | split; [reflexivity | discriminate]]. }
    assert (Hgo : forall urls',
               exists k,
                 k <= length (url :: rest)
                 /\ requested
                      (trace (snd (Crawler.each_seed lxml self rest urls'
                                     (after_request url (Crawler.config self)
                                                    w))))
                    = (requested (trace w)
                       ++ map (fun url => call_of url (Crawler.config self))
                              (firstn k (url :: rest)))%list
                 /\ (forall found,
                       fst (Crawler.each_seed lxml self rest urls'
                              (after_request url (Crawler.config self) w))
                       = Ok found ->
                       k = length (url :: rest))).
    { intros urls'.
      destruct (IH urls' (after_request url (Crawler.config self) w))
        as (k & Hk & Hr & Hf).
      exists (S k). cbn [firstn map length].
      rewrite Hr, requested_after_request, <- app_assoc.
      split; [lia | split; [reflexivity |]].
      intros found H. now rewrite (Hf found H). }
    rewrite each_seed_cons. cbv zeta.
    destruct (network w 0 (call_of url (Crawler.config self))) as [r | e];
      [| apply Hstop].
    destruct (requests.ok r); [| apply Hgo].
    destruct (Crawler._extract_url self (lxml (requests.text r)));
      [apply Hgo | apply Hstop].
Qed.

Lemma find_articles_world (self : Crawler.t) (seeds : list value)
    (w : world) :
  iterate (Crawler.get_search_urls self) = Ok seeds ->
  snd (Crawler.find_articles lxml self w)
  = snd (Crawler.each_seed lxml self seeds [] w).
Proof.
  intros H. unfold Crawler.find_articles, bind, lift, ret. rewrite H.
  destruct (Crawler.each_seed lxml self seeds [] w) as [[found | e] w'];
    reflexivity.
Qed.



Lemma extract_url_prefix (self : Crawler.t) (page : Bs4.node) (u : string) :
  Crawler._extract_url self page = Ok u ->
  exists href, u = Crawler.url_pattern self ++ href.
Proof.
  rewrite extract_url_run.
  destruct (forallb has_href (visited_anchors page)); [| discriminate].
  intros H. injection H as <-. eauto.
Qed.

Lemma successes_bound (self : Crawler.t) (seeds : list value)
    (net : nat -> requests.call -> result requests.Response) :
  successes self seeds net <= length seeds.
Proof.
  revert net. induction seeds as [|url rest IH]; intros net; simpl;
    [lia |].
  specialize (IH (fun n => net (S n))).
  destruct (net 0 (call_of url (Crawler.config self))) as [r | e];
    [destruct (requests.ok r) |]; lia.
Qed.

Lemma contributions_shape (self : Crawler.t) (seeds : list value)
    (net : nat -> requests.call -> result requests.Response)
    (cs : list string) :
  contributions lxml self seeds net = Ok cs ->
  length cs = successes self seeds net
  /\ Forall (fun u => exists href, u = Crawler.url_pattern self ++ href) cs.
Proof.
  revert net cs. induction seeds as [|url rest IH]; intros net cs; simpl.
  - intros H. injection H as <-. split; [reflexivity | constructor].
  - destruct (net 0 (call_of url (Crawler.config self))) as [r | e];
      simpl; [| discriminate].
    destruct (contributions lxml self rest (fun n => net (S n)))
      as [cs' | e] eqn:C.
    + destruct (IH _ _ C) as [L F].
      destruct (requests.ok r); simpl.
      * destruct (Crawler._extract_url self (lxml (requests.text r)))
          as [found | e] eqn:X; simpl; [| discriminate].
        intros H. injection H as <-. simpl. split; [now rewrite L |].
        constructor; [now apply extract_url_prefix with (lxml (requests.text r)) | exact F].
      * intros H. injection H as <-. simpl. split; [exact L | exact F].
    + destruct (requests.ok r); simpl; [| discriminate].
      destruct (Crawler._extract_url self (lxml (requests.text r)));
        simpl; discriminate.
Qed.

(** X6: when [find_articles] returns, the crawler keeps its configuration
    and origin, and its list of URLs is the earlier list, untouched and in
    place, followed by one new entry for each seed page answered with a
    success, no more and no fewer (never more than there are seeds, and
    nothing is deduplicated); every new entry begins with the origin. *)
Theorem discovery_extends_the_urls (self self' : Crawler.t)
    (seeds : list value) (w : world) :
  iterate (Crawler.get_search_urls self) = Ok seeds ->
  fst (Crawler.find_articles lxml self w) = Ok self' ->
  Crawler.config self' = Crawler.config self
  /\ Crawler.url_pattern self' = Crawler.url_pattern self
  /\ exists found,
       Crawler.urls self' = (Crawler.urls self ++ found)%list
       /\ length found = successes self seeds (network w)
       /\ length found <= length seeds
       /\ Forall (fun u => exists href,
                     u = Crawler.url_pattern self ++ href) found.
Proof.
  intros Hs H. rewrite find_articles_contributions, Hs in H. simpl in H.
  destruct (contributions lxml self seeds (network w)) as [cs | e] eqn:C;
    simpl in H; [| discriminate].
  injection H as <-. simpl. split; [reflexivity | split; [reflexivity |]].
  exists cs. destruct (contributions_shape _ _ _ _ C) as [L F].
  split; [reflexivity | split; [exact L | split; [| exact F]]].
  rewrite L. apply successes_bound.
Qed.

(** X7: for a configuration that [Config.__init__] accepted, discovery runs
    on well-formed requests only: the seeds iterate as a list of strings of
    the site's URL shape, and every GET of [find_articles] goes to one of
    them, in order, with the configured timeout, an [int] in 0..60, the
    headers, a dictionary, and the verification flag, a boolean. *)
Theorem validated_discovery_requests (file : value) (cfg : Config) :
  Config__init__ file = Ok cfg ->
  exists seeds : list string,
    iterate (Crawler.get_search_urls (Crawler.__init__ cfg))
    = Ok (map VStr seeds)
    /\ Forall site_url_shape seeds
    /\ isinstance_int (get_timeout cfg) = true
    /\ (0 <= int_of (get_timeout cfg) <= 60)%Z
    /\ isinstance_dict (get_headers cfg) = true
    /\ isinstance_bool (get_verify_certificate cfg) = true
    /\ forall w,
         exists k,
           k <= length seeds
           /\ requested
                (trace (snd (Crawler.find_articles lxml
                               (Crawler.__init__ cfg) w)))
              = (requested (trace w)
                 ++ map (fun s => requests.mkCall
                                    (VStr s) (get_timeout cfg)
                                    (get_headers cfg)
                                    (get_verify_certificate cfg))
                        (firstn k seeds))%list.
Proof.
  rewrite config_init_run.
  destruct (_validate_config_content file) as [[] | e] eqn:V; [| discriminate].
  destruct (_extract_config_content file) as [dto | e] eqn:E; [| discriminate].
  intros H. injection H as <-.
  destruct (validation_fields_of_file _ _ V E)
    as ((seeds & Hs & Hm) & _ & _ & Hh & _ & Hti & Htr & Hv & _).
  simpl in Hs, Hh, Hti, Htr, Hv.
  exists seeds.
  unfold Crawler.get_search_urls, get_seed_urls, get_timeout, get_headers,
    get_verify_certificate; simpl.
  rewrite Hs. split; [reflexivity |].
  split.
  { eapply Forall_impl; [| exact Hm]. intros s. apply shape_matches. }
  repeat (split; [assumption |]).
  intros w.
  set (self := Crawler.__init__ _).
  assert (Hi : iterate (Crawler.get_search_urls self) = Ok (map VStr seeds)).
  { reflexivity. }
  destruct (each_seed_requests self (map VStr seeds) [] w)
    as (k & Hk & Hr & _).
  exists k. rewrite length_map in Hk. split; [exact Hk |].
  rewrite (find_articles_world _ _ _ Hi), Hr.
  rewrite firstn_map, map_map. reflexivity.
Qed.

End Runs.

(** ** Extraction: what [parse] and [_fill_article_with_text] keep *)

Lemma filter_narrow {A} (p q : A -> bool) (l : list A) :
  filter p l = [] -> filter (fun a => p a && q a) l = [].
Proof.
  induction l as [|a l IH]; simpl; [reflexivity |].
  destruct (p a); simpl; [discriminate | exact IH].
Qed.

(** A tag without any [div] below it has no [div] of a given class below
    it. *)
Lemma find_all_narrow (n : Bs4.node) (name : string)
    (attrs : list (string * string)) :
  Bs4.find_all n name [] = [] -> Bs4.find_all n name attrs = [].
Proof.
  unfold Bs4.find_all. intros H.
  apply (filter_narrow (fun d => Bs4.tag_named name d && true)
                       (fun d => forallb (Bs4.attr_matches d) attrs))
    in H.
  rewrite <- H. apply filter_ext. intros d.
  now rewrite andb_true_r.
Qed.

Lemma fill_identity (self : HTMLParser.t) (soup : Bs4.node) :
  HTMLParser.full_url (HTMLParser._fill_article_with_text self soup)
  = HTMLParser.full_url self
  /\ HTMLParser.article_id (HTMLParser._fill_article_with_text self soup)
     = HTMLParser.article_id self
  /\ HTMLParser.config (HTMLParser._fill_article_with_text self soup)
     = HTMLParser.config self
  /\ Article.url
       (HTMLParser.article (HTMLParser._fill_article_with_text self soup))
     = Article.url (HTMLParser.article self)
  /\ Article.article_id
       (HTMLParser.article (HTMLParser._fill_article_with_text self soup))
     = Article.article_id (HTMLParser.article self).
Proof.
  unfold HTMLParser._fill_article_with_text.
  destruct (Bs4.find_all soup "div" []); repeat split.
Qed.

(** X9: [_fill_article_with_text] never touches the URL, the id or the
    configuration.  On a page without any [div] it leaves the text as it
    was; on any other page it replaces the text (it never appends to it),
    and the new text is empty whenever the first [div] of the page has no
    [div] inside it, whatever the class of that first [div] itself and
    whatever blocks stand elsewhere on the page. *)
Theorem fill_text_edges (self : HTMLParser.t) (soup : Bs4.node) :
  HTMLParser.full_url (HTMLParser._fill_article_with_text self soup)
  = HTMLParser.full_url self
  /\ HTMLParser.article_id (HTMLParser._fill_article_with_text self soup)
     = HTMLParser.article_id self
  /\ HTMLParser.config (HTMLParser._fill_article_with_text self soup)
     = HTMLParser.config self
  /\ Article.url
       (HTMLParser.article (HTMLParser._fill_article_with_text self soup))
     = Article.url (HTMLParser.article self)
  /\ Article.article_id
       (HTMLParser.article (HTMLParser._fill_article_with_text self soup))
     = Article.article_id (HTMLParser.article self)
  /\ (Bs4.find_all soup "div" [] = [] ->
      HTMLParser._fill_article_with_text self soup = self)
  /\ (forall first others,
        Bs4.find_all soup "div" [] = first :: others ->
        (forall earlier,
           HTMLParser._fill_article_with_text
             (HTMLParser._fill_article_with_text self earlier) soup
           = HTMLParser._fill_article_with_text self soup)
        /\ (Bs4.find_all first "div" [] = [] ->
            Article.text
              (HTMLParser.article
                 (HTMLParser._fill_article_with_text self soup))
            = "")).
Proof.
  unfold HTMLParser._fill_article_with_text.
  destruct (Bs4.find_all soup "div" []) as [|d ds] eqn:D; cbn [fst snd].
  - do 5 (split; [reflexivity |]). split; [reflexivity |].
    intros first others H. discriminate.
  - do 5 (split; [reflexivity |]). split; [discriminate |].
    intros first others H. injection H as <- <-. split.
    + intros earlier.
      destruct (Bs4.find_all earlier "div" []); reflexivity.
    + intros H. cbn [HTMLParser.article Article.text].
      fold text_block. now rewrite (find_all_narrow _ _ text_block H).
Qed.

Section Extraction.

Variable lxml : string -> Bs4.node.

(** X8: [parse] issues exactly one GET, for the parser's URL, and raises
    exactly when that GET raises, with the same exception: no page content
    makes it fail.  Whenever it returns, the article it returns is the
    parser's own, with the URL and the id given to [__init__], and the
    parser keeps its URL, id and configuration; the text can be non-empty
    only when the response was a success and the page holds a [div]. *)
Theorem parse_keeps_the_identity (full_url : string) (article_id : Z)
    (config : Config) (w : world) :
  requested
    (trace (snd (HTMLParser.parse lxml
                   (HTMLParser.__init__ full_url article_id config) w)))
  = (requested (trace w) ++ [call_of (VStr full_url) config])%list
  /\ (forall e,
        fst (HTMLParser.parse lxml
               (HTMLParser.__init__ full_url article_id config) w)
        = Raise e
        <-> network w 0 (call_of (VStr full_url) config) = Raise e)
  /\ (forall art parser,
        fst (HTMLParser.parse lxml
               (HTMLParser.__init__ full_url article_id config) w)
        = Ok (art, parser) ->
        art = HTMLParser.article parser
        /\ Article.url art = full_url
        /\ Article.article_id art = article_id
        /\ HTMLParser.full_url parser = full_url
        /\ HTMLParser.article_id parser = article_id
        /\ HTMLParser.config parser = config
        /\ (Article.text art <> "" ->
            exists r,
              network w 0 (call_of (VStr full_url) config) = Ok r
              /\ requests.ok r = true
              /\ Bs4.find_all (lxml (requests.text r)) "div" [] <> [])).
Proof.
  set (p := HTMLParser.__init__ full_url article_id config).
  rewrite parse_run. cbv zeta.
  change (HTMLParser.full_url p) with full_url.
  change (HTMLParser.config p) with config.
  destruct (network w 0 (call_of (VStr full_url) config)) as [r | e0].
  - destruct (requests.ok r) eqn:Hok; cbn [fst snd].
    + split; [apply requested_after_request |].
      split; [intros e; split; discriminate |].
      intros art parser H. injection H as <- <-.
      destruct (fill_identity p (lxml (requests.text r)))
        as (H1 & H2 & H3 & H4 & H5).
      rewrite H1, H2, H3, H4, H5. do 6 (split; [reflexivity |]).
      intros Ht. exists r. split; [reflexivity | split; [exact Hok |]].
      intros Hd. apply Ht.
      unfold HTMLParser._fill_article_with_text. now rewrite Hd.
    + split; [apply requested_after_request |].
      split; [intros e; split; discriminate |].
      intros art parser H. injection H as <- <-.
      do 6 (split; [reflexivity |]). intros Ht. now elim Ht.
  - cbn [fst snd]. split; [apply requested_after_request |].
    split; [intros e; split; intros H; injection H as <-; reflexivity |].
    intros art parser H. discriminate.
Qed.

End Extraction.

(** ** The storage directory: what is created, cleared and kept *)

Lemma assoc_set_entry_other (x y : string) (n : os.inode)
    (entries : list (string * os.inode)) :
  String.eqb y x = false ->
  assoc y (os.set_entry x n entries) = assoc y entries.
Proof.
  intros Hxy. induction entries as [|[z m] entries IH]; simpl.
  - now rewrite Hxy.
  - destruct (String.eqb x z) eqn:Exz; simpl.
    + apply String.eqb_eq in Exz. subst z. now rewrite Hxy.
    + now rewrite IH.
Qed.

Lemma assoc_del_entry_other (x y : string)
    (entries : list (string * os.inode)) :
  String.eqb y x = false ->
  assoc y (os.del_entry x entries) = assoc y entries.
Proof.
  intros Hxy. induction entries as [|[z m] entries IH]; simpl;
    [reflexivity |].
  destruct (String.eqb x z) eqn:Exz; simpl.
  - apply String.eqb_eq in Exz. subst z. now rewrite Hxy.
  - now rewrite IH.
Qed.

Lemma assoc_app_old {A} (y : string) (a : A) (kv extra : list (string * A)) :
  assoc y kv = Some a -> assoc y (kv ++ extra) = Some a.
Proof.
  induction kv as [|[z b] kv IH]; simpl; [discriminate |].
  destruct (String.eqb y z); [auto | exact IH].
Qed.

Lemma lookup_app (n : os.inode) (p q : list string) :
  os.lookup n (p ++ q)
  = match os.lookup n p with
    | Some m => os.lookup m q
    | None => None
    end.
Proof.
  revert n. induction p as [|x p IH]; intros n; simpl; [reflexivity |].
  destruct n as [|entries]; [reflexivity |].
  destruct (assoc x entries); [apply IH | reflexivity].
Qed.

(** [os.makedirs] keeps what exists: every path that led to a file or a
    directory still leads to one of the same kind. *)
Lemma makedirs_at_preserves (p : list string) (n n' : os.inode) :
  os.makedirs_at n p = Ok n' ->
  forall q m,
    os.lookup n q = Some m ->
    exists m', os.lookup n' q = Some m' /\ same_kind m m'.
Proof.
  revert n n'. induction p as [|x p IH]; intros n n' H; simpl in H;
    [discriminate |].
  destruct n as [|entries]; [discriminate |].
  assert (Hroot : forall es m,
             os.lookup (os.Dir entries) [] = Some m ->
             exists m', os.lookup (os.Dir es) [] = Some m' /\ same_kind m m').
  { intros es m Hm. injection Hm as <-. exists (os.Dir es). now split. }
  destruct (assoc x entries) as [child|] eqn:E.
  - destruct (os.makedirs_at child p) as [child'|] eqn:M; simpl in H;
      [| discriminate].
    injection H as <-. intros [|y q] m Hm; [now apply Hroot |].
    simpl in Hm |- *. destruct (String.eqb y x) eqn:Exy.
    + apply String.eqb_eq in Exy. subst y. rewrite E in Hm.
      rewrite assoc_set_entry. exact (IH _ _ M q m Hm).
    + rewrite (assoc_set_entry_other _ _ _ _ Exy).
      destruct (assoc y entries) as [c|]; [| discriminate].
      exists m. split; [exact Hm | destruct m; exact I].
  - injection H as <-. intros [|y q] m Hm; [now apply Hroot |].
    simpl in Hm |- *.
    destruct (assoc y entries) as [c|] eqn:Ey; [| discriminate].
    rewrite (assoc_app_old _ _ _ _ Ey).
    exists m. split; [exact Hm | destruct m; exact I].
Qed.

Lemma resolve_same_cwd (f f' : os.fs) (p : os.path) :
  os.cwd f' = os.cwd f -> os.resolve f' p = os.resolve f p.
Proof. intros H. unfold os.resolve. now rewrite H. Qed.

(** X10: on a path that does not exist, with no file standing above it,
    [prepare_environment] creates the directory with the directories
    missing above it and leaves it empty; a second call right after finds
    it, raises nothing and changes nothing, so two calls in a row do what
    one call does. *)
Theorem prepare_creates_then_keeps (base_path : os.path) (f : os.fs) :
  os.lookup (os.root f) (os.resolve f base_path) = None ->
  (forall q, (exists q', os.resolve f base_path = q ++ q')%list ->
             os.lookup (os.root f) q <> Some os.File) ->
  exists f',
    prepare_environment base_path f = (Ok tt, f')
    /\ os.cwd f' = os.cwd f
    /\ os.lookup (os.root f') (os.resolve f' base_path) = Some (os.Dir [])
    /\ prepare_environment base_path f' = (Ok tt, f')
    /\ bind (prepare_environment base_path)
            (fun _ => prepare_environment base_path) f
       = (Ok tt, f').
Proof.
  intros Hl Hf. destruct (prepare_creates _ _ Hl Hf) as (f' & P & C & L).
  exists f'. rewrite (resolve_same_cwd _ _ _ C).
  assert (L' : os.lookup (os.root f') (os.resolve f' base_path)
               = Some (os.Dir []))
    by now rewrite (resolve_same_cwd _ _ _ C).
  destruct (prepare_on_empty _ _ L') as [P' _].
  repeat (split; [assumption |]).
  unfold bind. now rewrite P.
Qed.

Lemma prepare_creation_entries (base_path : os.path) (f : os.fs)
    (q : list string) (m : os.inode) :
  os.lookup (os.root f) (os.resolve f base_path) = None ->
  os.lookup (os.root f) q = Some m ->
  exists m',
    os.lookup (os.root (snd (prepare_environment base_path f))) q = Some m'
    /\ same_kind m m'.
Proof.
  intros Hl Hq.
  unfold prepare_environment, bind, os.path_exists, os.makedirs, os.on_root.
  rewrite Hl. simpl.
  destruct (os.makedirs_at (os.root f) (os.resolve f base_path))
    as [r | e] eqn:M; simpl.
  - exact (makedirs_at_preserves _ _ _ M q m Hq).
  - exists m. split; [exact Hq | destruct m; exact I].
Qed.

(** X11: creating the storage directory removes nothing and replaces
    nothing: when [prepare_environment] runs on a path that does not exist,
    the working directory stays what it was and every path that led to a
    file or to a directory before still leads to a file or to a directory
    afterwards, also when the call raises. *)
Theorem prepare_creation_keeps_entries (base_path : os.path) (f : os.fs)
    (q : list string) (m : os.inode) :
  os.lookup (os.root f) (os.resolve f base_path) = None ->
  os.lookup (os.root f) q = Some m ->
  os.cwd (snd (prepare_environment base_path f)) = os.cwd f
  /\ exists m',
       os.lookup (os.root (snd (prepare_environment base_path f))) q
       = Some m'
       /\ same_kind m m'.
Proof.
  intros Hl Hq. split; [| now apply prepare_creation_entries].
  unfold prepare_environment, bind, os.path_exists, os.makedirs, os.on_root.
  rewrite Hl. simpl.
  destruct (os.makedirs_at (os.root f) (os.resolve f base_path));
    reflexivity.
Qed.

Lemma remove_at_below (x : string) (p : list string)
    (entries : list (string * os.inode)) :
  p <> [] ->
  os.remove_at (os.Dir entries) (x :: p)
  = match assoc x entries with
    | None => Raise FileNotFoundError
    | Some child =>
        (child' <- os.remove_at child p ;;
         Ok (os.Dir (os.set_entry x child' entries)))%result
    end.
Proof. destruct p; [congruence | reflexivity]. Qed.

Lemma snoc_not_nil {A} (l : list A) (a : A) : (l ++ [a])%list <> [].
Proof. destruct l; discriminate. Qed.

(** Removing a file of a directory leaves the directory without it. *)
Lemma remove_at_file (c : list string) (n : os.inode)
    (es : list (string * os.inode)) (x : string) :
  os.lookup n c = Some (os.Dir es) ->
  assoc x es = Some os.File ->
  exists n',
    os.remove_at n (c ++ [x]) = Ok n'
    /\ os.lookup n' c = Some (os.Dir (os.del_entry x es)).
Proof.
  revert n. induction c as [|y c IH]; intros n Hl Hx; simpl in Hl.
  - injection Hl as ->. simpl. rewrite Hx. eauto.
  - destruct n as [|entries]; [discriminate |].
    destruct (assoc y entries) as [child|] eqn:E; [| discriminate].
    destruct (IH child Hl Hx) as (child' & R & L).
    exists (os.Dir (os.set_entry y child' entries)).
    change ((y :: c) ++ [x])%list with (y :: (c ++ [x]))%list.
    rewrite remove_at_below by apply snoc_not_nil.
    rewrite E, R. simpl. now rewrite assoc_set_entry.
Qed.

(** Removing a directory raises. *)
Lemma remove_at_directory (c : list string) (n : os.inode)
    (es sub : list (string * os.inode)) (x : string) :
  os.lookup n c = Some (os.Dir es) ->
  assoc x es = Some (os.Dir sub) ->
  os.remove_at n (c ++ [x]) = Raise IsADirectoryError.
Proof.
  revert n. induction c as [|y c IH]; intros n Hl Hx; simpl in Hl.
  - injection Hl as ->. simpl. now rewrite Hx.
  - destruct n as [|entries]; [discriminate |].
    destruct (assoc y entries) as [child|] eqn:E; [| discriminate].
    change ((y :: c) ++ [x])%list with (y :: (c ++ [x]))%list.
    rewrite remove_at_below by apply snoc_not_nil.
    now rewrite E, (IH child Hl Hx).
Qed.

(** Removing one path leaves every other file in place. *)
Lemma remove_at_other (p : list string) (n n' : os.inode) (q : list string) :
  os.remove_at n p = Ok n' ->
  q <> p ->
  os.lookup n q = Some os.File ->
  os.lookup n' q = Some os.File.
Proof.
  revert n n' q. induction p as [|x p IH]; intros n n' q R Hq L;
    [discriminate |].
  destruct n as [|entries]; [discriminate |].
  destruct q as [|y q]; [discriminate |].
  simpl in L.
  destruct p as [|z p].
  - simpl in R. destruct (assoc x entries) as [[|sub]|] eqn:E;
      try discriminate.
    injection R as <-. simpl.
    destruct (String.eqb y x) eqn:Eyx.
    + apply String.eqb_eq in Eyx. subst y. rewrite E in L.
      destruct q; [congruence | discriminate].
    + now rewrite (assoc_del_entry_other _ _ _ Eyx).
  - rewrite remove_at_below in R by discriminate.
    destruct (assoc x entries) as [child|] eqn:E; [| discriminate].
    destruct (os.remove_at child (z :: p)) as [child'|] eqn:Rc;
      simpl in R; [| discriminate].
    injection R as <-. simpl.
    destruct (String.eqb y x) eqn:Eyx.
    + apply String.eqb_eq in Eyx. subst y. rewrite E in L.
      rewrite assoc_set_entry. apply (IH child child' q Rc); [| exact L].
      congruence.
    + now rewrite (assoc_set_entry_other _ _ _ _ Eyx).
Qed.

(** One turn of the loop of lines 337-339. *)
Lemma each_file_cons (file : string) (rest : list string) (f : os.fs) :
  each_file (file :: rest) f
  = match os.lookup (os.root f) (os.cwd f ++ [file]) with
    | None => each_file rest f
    | Some _ =>
        match os.remove_at (os.root f) (os.cwd f ++ [file]) with
        | Ok r => each_file rest (os.mkFs r (os.cwd f))
        | Raise e => (Raise e, f)
        end
    end.
Proof.
  simpl. unfold bind at 1, os.path_exists, os.resolve, os.name_as_path.
  simpl. destruct (os.lookup (os.root f) (os.cwd f ++ [file])).
  - unfold bind, os.remove, os.on_root, os.resolve. simpl.
    destruct (os.remove_at (os.root f) (os.cwd f ++ [file])); reflexivity.
  - reflexivity.
Qed.

(** The loop removes the files that head the working directory one after
    the other. *)
Lemma each_file_removes (files others : list (string * os.inode))
    (names : list string) (f : os.fs) :
  os.lookup (os.root f) (os.cwd f) = Some (os.Dir (files ++ others)) ->
  Forall (fun e => snd e = os.File) files ->
  exists f1,
    os.cwd f1 = os.cwd f
    /\ os.lookup (os.root f1) (os.cwd f) = Some (os.Dir others)
    /\ each_file (map fst files ++ names) f = each_file names f1.
Proof.
  revert f. induction files as [|[x n] files IH]; intros f Hl Hf.
  - exists f. auto.
  - inversion Hf as [|? ? Hx Hf']; subst. simpl in Hx. subst n.
    assert (Ex : assoc x (((x, os.File) :: files) ++ others) = Some os.File)
      by (simpl; now rewrite String.eqb_refl).
    destruct (remove_at_file _ _ _ _ Hl Ex) as (r & R & L).
    simpl in L. rewrite String.eqb_refl in L.
    destruct (IH (os.mkFs r (os.cwd f)) L Hf') as (f1 & C & L1 & E).
    exists f1. split; [exact C | split; [exact L1 |]].
    simpl map. simpl app. rewrite each_file_cons.
    rewrite lookup_app, Hl. simpl os.lookup. rewrite String.eqb_refl.
    rewrite R. exact E.
Qed.

(** X12: when the storage directory is the working directory of the
    process and holds only files, [prepare_environment] removes them all
    and leaves the directory empty.  It is not recursive and does not skip
    what it cannot remove: at the first entry that is a directory it raises
    [IsADirectoryError], having removed the files listed before it and
    nothing after it. *)
Theorem prepare_clears_working_directory (base_path : os.path) (f : os.fs)
    (files : list (string * os.inode)) :
  os.resolve f base_path = os.cwd f ->
  Forall (fun e => snd e = os.File) files ->
  (os.lookup (os.root f) (os.cwd f) = Some (os.Dir files) ->
   exists f',
     prepare_environment base_path f = (Ok tt, f')
     /\ os.cwd f' = os.cwd f
     /\ os.lookup (os.root f') (os.cwd f) = Some (os.Dir []))
  /\ (forall d sub rest,
        os.lookup (os.root f) (os.cwd f)
        = Some (os.Dir (files ++ (d, os.Dir sub) :: rest)) ->
        exists f',
          prepare_environment base_path f = (Raise IsADirectoryError, f')
          /\ os.cwd f' = os.cwd f
          /\ os.lookup (os.root f') (os.cwd f)
             = Some (os.Dir ((d, os.Dir sub) :: rest))).
Proof.
  intros Hb Hf.
  assert (Hrun : forall es,
             os.lookup (os.root f) (os.cwd f) = Some (os.Dir es) ->
             prepare_environment base_path f = each_file (map fst es) f).
  { intros es Hl.
    unfold prepare_environment, bind, os.path_exists, os.listdir.
    rewrite Hb, Hl. simpl. now rewrite Hb, Hl. }
  split.
  - intros Hl. rewrite (Hrun _ Hl).
    rewrite <- (app_nil_r files) in Hl.
    destruct (each_file_removes files [] [] f Hl Hf) as (f1 & C & L & E).
    exists f1. rewrite app_nil_r in E. rewrite E. auto.
  - intros d sub rest Hl. rewrite (Hrun _ Hl).
    destruct (each_file_removes files ((d, os.Dir sub) :: rest)
                (d :: map fst rest) f Hl Hf) as (f1 & C & L & E).
    exists f1. rewrite map_app. simpl map. rewrite E, each_file_cons.
    rewrite C, lookup_app, L. simpl os.lookup. rewrite String.eqb_refl.
    assert (Ed : assoc d ((d, os.Dir sub) :: rest) = Some (os.Dir sub))
      by (simpl; now rewrite String.eqb_refl).
    rewrite (remove_at_directory _ _ _ _ _ L Ed). auto.
Qed.

(** Whatever the loop does, and whether or not it raises, a file that is not
    an entry of the working directory named in the list stays in place. *)
Lemma each_file_keeps (files : list string) (f : os.fs) (q : list string) :
  (forall name, In name files -> q <> (os.cwd f ++ [name])%list) ->
  os.lookup (os.root f) q = Some os.File ->
  os.cwd (snd (each_file files f)) = os.cwd f
  /\ os.lookup (os.root (snd (each_file files f))) q = Some os.File.
Proof.
  revert f. induction files as [|file rest IH]; intros f Hq L;
    [split; [reflexivity | exact L] |].
  assert (Hrest : forall name,
             In name rest -> q <> (os.cwd f ++ [name])%list)
    by (intros name Hin; apply Hq; now right).
  rewrite each_file_cons.
  destruct (os.lookup (os.root f) (os.cwd f ++ [file]));
    [| now apply IH].
  destruct (os.remove_at (os.root f) (os.cwd f ++ [file])) as [r | e] eqn:R;
    [| split; [reflexivity | exact L]].
  apply (IH (os.mkFs r (os.cwd f))); [exact Hrest |].
  simpl. apply (remove_at_other _ _ _ _ R); [| exact L].
  apply Hq. now left.
Qed.

(** X13: [prepare_environment] removes nothing but entries of the working
    directory: a file at any other path is still there after the call,
    whether the call creates the directory, clears or raises.  In
    particular, when the storage directory is not the working directory,
    every file in it survives the call. *)
Theorem prepare_removes_only_from_cwd (base_path : os.path) (f : os.fs) :
  (forall q,
     os.lookup (os.root f) q = Some os.File ->
     (forall name, q <> (os.cwd f ++ [name])%list) ->
     os.lookup (os.root (snd (prepare_environment base_path f))) q
     = Some os.File)
  /\ (forall name,
        os.resolve f base_path <> os.cwd f ->
        os.lookup (os.root f) (os.resolve f base_path ++ [name])
        = Some os.File ->
        os.lookup (os.root (snd (prepare_environment base_path f)))
                  (os.resolve f base_path ++ [name])
        = Some os.File).
Proof.
  assert (Hgen : forall q,
             os.lookup (os.root f) q = Some os.File ->
             (forall name, q <> (os.cwd f ++ [name])%list) ->
             os.lookup (os.root (snd (prepare_environment base_path f))) q
             = Some os.File).
  { intros q L Hq.
    destruct (os.lookup (os.root f) (os.resolve f base_path)) as [m|] eqn:B.
    - unfold prepare_environment, bind, os.path_exists, os.listdir.
      rewrite B. simpl. rewrite B.
      destruct m as [|entries]; [exact L |].
      apply each_file_keeps; [| exact L]. intros name _. apply Hq.
    - destruct (prepare_creation_entries base_path f q os.File B L)
        as (m' & L' & K).
      destruct m'; [exact L' | contradiction]. }
  split; [exact Hgen |].
  intros name Hb L. apply Hgen; [exact L |].
  intros name' E. apply app_inj_tail in E as [E _]. contradiction.
Qed.

(** ** The further properties on concrete runs *)


Lemma discovery_extends_the_urls_witness :
  iterate (Crawler.get_search_urls example_crawler)
  = Ok [VStr news_url; VStr sport_url]
  /\ fst (Crawler.find_articles example_lxml example_crawler
            world_refused_then_found)
     = Ok (Crawler.mk (example_config two_seeds)
                      ["https://www.21mm.ru/news/2"] "https://www.21mm.ru")
  /\ exists found,
       ["https://www.21mm.ru/news/2"]
       = (Crawler.urls example_crawler ++ found)%list
       /\ length found
          = successes example_crawler [VStr news_url; VStr sport_url]
                      (network world_refused_then_found).
Proof.
  split; [reflexivity | split; [reflexivity |]].
  destruct (discovery_extends_the_urls example_lxml example_crawler
              (Crawler.mk (example_config two_seeds)
                          ["https://www.21mm.ru/news/2"]
                          "https://www.21mm.ru")
              [VStr news_url; VStr sport_url] world_refused_then_found
              eq_refl eq_refl)
    as (_ & _ & found & Hu & Hl & _).
  exists found. split; [exact Hu | exact Hl].
Defined.

Lemma validated_discovery_requests_witness :
  Config__init__ (config_file two_seeds (VInt 5))
  = Ok (example_config two_seeds)
  /\ exists seeds : list string,
       iterate (Crawler.get_search_urls
                  (Crawler.__init__ (example_config two_seeds)))
       = Ok (map VStr seeds)
       /\ Forall site_url_shape seeds.
Proof.
  split; [reflexivity |].
  destruct (validated_discovery_requests example_lxml
              (config_file two_seeds (VInt 5)) (example_config two_seeds)
              eq_refl)
    as (seeds & Hi & Hs & _).
  exists seeds. split; [exact Hi | exact Hs].
Defined.

Lemma prepare_creates_then_keeps_witness :
  os.lookup (os.root empty_project_fs)
            (os.resolve empty_project_fs storage_below_cwd)
  = None
  /\ exists f',
       prepare_environment storage_below_cwd empty_project_fs = (Ok tt, f')
       /\ prepare_environment storage_below_cwd f' = (Ok tt, f').
Proof.
  split; [reflexivity |].
  destruct (prepare_creates_then_keeps storage_below_cwd empty_project_fs
              eq_refl)
    as (f' & P & _ & _ & P' & _).
  - intros q (q' & E) H.
    destruct q as [|a [|b [|c [|d q]]]]; simpl in E, H;
      try discriminate.
    + injection E as <- _. simpl in H. discriminate.
    + injection E as <- <- _. simpl in H. discriminate.
    + injection E as <- <- <- _. simpl in H. discriminate.
  - exists f'. split; [exact P | exact P'].
Defined.

Lemma prepare_creation_keeps_entries_witness :
  os.lookup (os.root stale_fs) (os.resolve stale_fs cache_path) = None
  /\ os.lookup (os.root stale_fs) ["tmp"; "articles"; "1_raw.txt"]
     = Some os.File
  /\ exists m',
       os.lookup (os.root (snd (prepare_environment cache_path stale_fs)))
                 ["tmp"; "articles"; "1_raw.txt"]
       = Some m'
       /\ same_kind os.File m'.
Proof.
  split; [reflexivity | split; [reflexivity |]].
  exact (proj2 (prepare_creation_keeps_entries cache_path stale_fs
                  ["tmp"; "articles"; "1_raw.txt"] os.File
                  eq_refl eq_refl)).
Defined.

Lemma prepare_clears_working_directory_witness :
  os.resolve inside_fs assets = os.cwd inside_fs
  /\ Forall (fun e => snd e = os.File)
            [("1_raw.txt", os.File); ("2_raw.txt", os.File)]
  /\ os.lookup (os.root inside_fs) (os.cwd inside_fs)
     = Some (os.Dir [("1_raw.txt", os.File); ("2_raw.txt", os.File)])
  /\ exists f',
       prepare_environment assets inside_fs = (Ok tt, f')
       /\ os.cwd f' = os.cwd inside_fs
       /\ os.lookup (os.root f') (os.cwd inside_fs) = Some (os.Dir []).
Proof.
  assert (F : Forall (fun e : string * os.inode => snd e = os.File)
                [("1_raw.txt", os.File); ("2_raw.txt", os.File)])
    by (repeat constructor).
  split; [reflexivity | split; [exact F | split; [reflexivity |]]].
  exact (proj1 (prepare_clears_working_directory assets inside_fs
                  [("1_raw.txt", os.File); ("2_raw.txt", os.File)]
                  eq_refl F)
               eq_refl).
Defined.
